(** * The unsubscribe endpoint [api/unsubscribe/[token].js]

    A shallow embedding of the request handler and of its helpers, and the
    properties its specification states about them.

    The handler runs on Node.js.  What it takes from the runtime and whose
    behaviour does not fit in a few lines (the keyed hash, the JSON reader,
    number formatting, Unicode case tables, the URL class) is collected in
    the interface [Runtime]; the theorems hold for every runtime.
    Everything else is defined here after the source:  the base64 reader of
    [Buffer.from], the token split, the fixed-time comparison, the coercions
    of JSON values, the string helpers, the SQL statements and the handler
    itself.

    How the source is read:
    - strings are sequences of UTF-16 code units, buffers sequences of
      octets;
    - a Number is the value it denotes, or NaN, or an infinity;
    - an expression has a value or throws; the handler's early [return]s
      are the branches of [verify] and [handler];
    - the clock enters as the value of [Date.now() / 1000];
    - the database is a table of rows, a clock of its own and a list that
      says which of the coming statements the backend rejects; [await]
      runs a statement to its end before the next one.

    A second, concrete runtime ([reference]: HMAC-SHA-256, UTF-8, a JSON
    reader, decimal conversion) serves to run the handler on the requests
    of the scenarios. *)

From Stdlib Require Import Strings.String Strings.Ascii Strings.Byte.
From Stdlib Require Import NArith ZArith QArith Bool Lia List.
Import ListNotations.
Close Scope Q_scope.

Set Warnings "-register-all".

(* ================================================================== *)
(** * Data *)

(** A [Buffer]: a sequence of octets. *)
Definition bytes := list byte.

(** A JavaScript string: a sequence of UTF-16 code units. *)
Definition jsstring := list N.

(** The code units of an ASCII literal of the source. *)
Definition js (s : string) : jsstring :=
  map N_of_ascii (list_ascii_of_string s).

Definition jsstring_eqb (a b : jsstring) : bool :=
  if list_eq_dec N.eq_dec a b then true else false.

Definition byte_of_N (n : N) : byte :=
  match Byte.of_N (n mod 256) with
  | Some b => b
  | None => x00
  end.

(** [s.length], [s + t], [c.repeat(n)], [s.slice(0, n)] are [length],
    [++], [repeat] and [firstn] on code units. *)

(** [s.replace(/c/g, d)] for single code units [c] and [d]. *)
Definition replace_all (c d : N) (s : jsstring) : jsstring :=
  map (fun x => if N.eqb x c then d else x) s.

(* ================================================================== *)
(** * [Buffer.from(s, "base64")]

    Node's reader is lenient: it accepts the standard and the URL-safe
    alphabet alike, skips every other character, stops at the first [=],
    and never throws.  A trailing group of two or three characters gives
    one or two octets; a lone trailing character gives none. *)

Module Buffer.
Local Open Scope N_scope.

(** The value of a character in either alphabet (Node's [unbase64]). *)
Definition unbase64 (c : N) : option N :=
  if (65 <=? c) && (c <=? 90) then Some (c - 65)
  else if (97 <=? c) && (c <=? 122) then Some (c - 71)
  else if (48 <=? c) && (c <=? 57) then Some (c + 4)
  else if (c =? 43) || (c =? 45) then Some 62
  else if (c =? 47) || (c =? 95) then Some 63
  else None.

(** The legal characters up to the first [=], as 6-bit values.  The
    reader looks at the low octet of each code unit. *)
Fixpoint sextets (s : jsstring) : list N :=
  match s with
  | [] => []
  | c :: rest =>
      let c8 := c mod 256 in
      match unbase64 c8 with
      | Some v => v :: sextets rest
      | None => if c8 =? 61 then [] else sextets rest
      end
  end.

Definition octet0 (hi lo : N) : byte :=
  byte_of_N (N.lor (N.shiftl (N.land hi 63) 2) (N.shiftr (N.land lo 48) 4)).
Definition octet1 (hi lo : N) : byte :=
  byte_of_N (N.lor (N.shiftl (N.land hi 15) 4) (N.shiftr (N.land lo 60) 2)).
Definition octet2 (hi lo : N) : byte :=
  byte_of_N (N.lor (N.shiftl (N.land hi 3) 6) (N.land lo 63)).

Fixpoint octets (q : list N) : bytes :=
  match q with
  | a :: b :: c :: d :: rest =>
      octet0 a b :: octet1 b c :: octet2 c d :: octets rest
  | [a; b; c] => [octet0 a b; octet1 b c]
  | [a; b] => [octet0 a b]
  | _ => []
  end.

Definition from_base64 (s : jsstring) : bytes := octets (sextets s).

End Buffer.

(** [base64urlToBuffer], lines 29-34. *)
Definition base64urlToBuffer (b64url : jsstring) : bytes :=
  let rem := (N.of_nat (length b64url) mod 4)%N in
  let pad := if (rem =? 0)%N then 0%N else (4 - rem)%N in
  let b64 :=
    replace_all 95 47 (replace_all 45 43 b64url) ++ repeat 61%N (N.to_nat pad) in
  Buffer.from_base64 b64.

(** Modelled from the spec: the issuer's side of the wire format,
    [URL-safe-base64(payload ++ 0x2E ++ signature)] (RFC 4648, section 5).
    The source only reads tokens; issuing them is outside it.  [padded]
    says whether the issuer keeps the trailing [=] signs. *)
Module Issuer.
Local Open Scope N_scope.

Definition url_char (v : N) : N :=
  if v <? 26 then v + 65
  else if v <? 52 then v + 71
  else if v <? 62 then v - 4
  else if v =? 62 then 45
  else 95.

Definition sextet0 (a : byte) : N := N.shiftr (Byte.to_N a) 2.
Definition sextet1 (a b : byte) : N :=
  N.lor (N.shiftl (N.land (Byte.to_N a) 3) 4) (N.shiftr (Byte.to_N b) 4).
Definition sextet2 (b c : byte) : N :=
  N.lor (N.shiftl (N.land (Byte.to_N b) 15) 2) (N.shiftr (Byte.to_N c) 6).
Definition sextet3 (c : byte) : N := N.land (Byte.to_N c) 63.

Fixpoint sextets_of (bs : bytes) : list N :=
  match bs with
  | a :: b :: c :: rest =>
      sextet0 a :: sextet1 a b :: sextet2 b c :: sextet3 c :: sextets_of rest
  | [a; b] => [sextet0 a; sextet1 a b; sextet2 b x00]
  | [a] => [sextet0 a; sextet1 a x00]
  | [] => []
  end.

(** The number of [=] signs that complete the last group. *)
Definition padding (bs : bytes) : nat := ((3 - length bs mod 3) mod 3)%nat.

Definition base64url (padded : bool) (bs : bytes) : jsstring :=
  map url_char (sextets_of bs) ++ (if padded then repeat 61 (padding bs) else []).

(** The token for a payload and its signature. *)
Definition token (padded : bool) (payload signature : bytes) : jsstring :=
  base64url padded (payload ++ x2e :: signature).

End Issuer.

(* ================================================================== *)
(** * Results of evaluating an expression

    An expression of the source either has a value or throws. *)

Inductive exn : Type :=
| TypeError
| RangeError
| QueryFailed.

Inductive result (A : Type) : Type :=
| Val (a : A)
| Throws (e : exn).
Arguments Val {A} a.
Arguments Throws {A} e.

Definition rbind {A B} (r : result A) (k : A -> result B) : result B :=
  match r with
  | Val a => k a
  | Throws e => Throws e
  end.

(* ================================================================== *)
(** * [safeEqual], lines 36-41 *)

(** [crypto.timingSafeEqual]: throws on operands of different length;
    otherwise folds the differences of all octet pairs into one
    accumulator and tests it at the end, so that every pair is visited
    wherever the first difference is. *)
Definition timingSafeEqual (a b : bytes) : result bool :=
  if negb (Nat.eqb (length a) (length b)) then Throws RangeError
  else
    Val (N.eqb
           (fold_left
              (fun acc xy => N.lor acc (N.lxor (Byte.to_N (fst xy)) (Byte.to_N (snd xy))))
              (combine a b) 0%N)
           0%N).

Definition safeEqual (a b : bytes) : result bool :=
  let ab := a in
  let bb := b in
  if negb (Nat.eqb (length ab) (length bb)) then Val false
  else timingSafeEqual ab bb.

(* ================================================================== *)
(** * JavaScript values that [JSON.parse] produces *)

(** A Number.  A finite double is represented by the rational it denotes:
    the handler only compares Numbers and tests them for zero, and both
    depend on the denoted value alone (so [-0] is [Finite 0]). *)
Inductive jsnum : Type :=
| NaN
| Infinity (negative : bool)
| Finite (q : Q).

(** [a > b] on Numbers. *)
Definition num_gt (a b : jsnum) : bool :=
  match a, b with
  | NaN, _ | _, NaN => false
  | Infinity false, Infinity false => false
  | Infinity false, _ => true
  | Infinity true, _ => false
  | Finite _, Infinity neg => neg
  | Finite x, Finite y => negb (Qle_bool x y)
  end.

Inductive JSON : Type :=
| JNull
| JBool (b : bool)
| JNum (n : jsnum)
| JStr (s : jsstring)
| JArr (items : list JSON)
| JObj (members : list (jsstring * JSON)).

(** A value read from a property: [None] is [undefined]. *)
Definition jsval := option JSON.

(** Own property of an object built by [JSON.parse] (one entry per name). *)
Fixpoint own_property (members : list (jsstring * JSON)) (name : jsstring) : jsval :=
  match members with
  | [] => None
  | (k, v) :: rest => if jsstring_eqb k name then Some v else own_property rest name
  end.

(** [payload.name] for [name] one of [email], [exp]; no prototype in reach
    defines either, so only an object's own members answer.  Reading a
    property of [null] throws. *)
Definition get (payload : JSON) (name : jsstring) : result jsval :=
  match payload with
  | JNull => Throws TypeError
  | JObj members => Val (own_property members name)
  | _ => Val None
  end.

(** ToBoolean: [!v] is [negb (truthy v)]. *)
Definition truthy (v : jsval) : bool :=
  match v with
  | None => false
  | Some JNull => false
  | Some (JBool b) => b
  | Some (JNum NaN) => false
  | Some (JNum (Infinity _)) => true
  | Some (JNum (Finite q)) => negb (Qeq_bool q 0)
  | Some (JStr s) => negb (Nat.eqb (length s) 0)
  | Some (JArr _) => true
  | Some (JObj _) => true
  end.

(* ================================================================== *)
(** * What the handler takes from the runtime *)

Class Runtime : Type := {
  (** [crypto.createHmac("sha256", key).update(data).digest()] *)
  hmac_sha256 : jsstring -> bytes -> bytes;
  (** [buf.toString("utf8")] *)
  utf8_toString : bytes -> jsstring;
  (** [JSON.parse(text)]; [None] when it throws a SyntaxError *)
  JSON_parse : jsstring -> option JSON;
  (** [String(n)] for a Number [n] *)
  Number_toString : jsnum -> jsstring;
  (** [Number(s)] for a string [s] *)
  StringToNumber : jsstring -> jsnum;
  (** [s.toLowerCase()] for a string with a code unit outside ASCII *)
  toLowerCase_unicode : jsstring -> jsstring;
  (** [new URL(base)], two [searchParams.set] and [toString()];
      [None] when [new URL] throws *)
  URL_with_params : jsstring -> list (jsstring * jsstring) -> option jsstring
}.

Section Coercions.
Context {node : Runtime}.

Definition has_own (members : list (jsstring * JSON)) (name : jsstring) : bool :=
  match own_property members name with
  | Some _ => true
  | None => false
  end.

(** [String(v)].  An array joins its elements with commas, [null]
    elements giving the empty string.  A plain object answers
    [[object Object]] through [Object.prototype.toString], unless a member
    of its own named [toString] shadows that method with a value that
    cannot be called: then no conversion is left and a TypeError is
    thrown. *)
Fixpoint ToString (v : JSON) : result jsstring :=
  match v with
  | JNull => Val (js "null")
  | JBool true => Val (js "true")
  | JBool false => Val (js "false")
  | JNum n => Val (Number_toString n)
  | JStr s => Val s
  | JArr items =>
      (fix join (l : list JSON) : result jsstring :=
         match l with
         | [] => Val []
         | x :: rest =>
             rbind (match x with JNull => Val [] | _ => ToString x end) (fun a =>
             match rest with
             | [] => Val a
             | _ => rbind (join rest) (fun b => Val (a ++ 44%N :: b))
             end)
         end) items
  | JObj members =>
      if has_own members (js "toString") then Throws TypeError
      else Val (js "[object Object]")
  end.

(** [Number(v)]. *)
Definition ToNumber (v : JSON) : result jsnum :=
  match v with
  | JNull => Val (Finite 0)
  | JBool true => Val (Finite 1)
  | JBool false => Val (Finite 0)
  | JNum n => Val n
  | JStr s => Val (StringToNumber s)
  | JArr _ => rbind (ToString v) (fun s => Val (StringToNumber s))
  | JObj members =>
      if has_own members (js "toString") then Throws TypeError
      else Val NaN
  end.

(** [String(v)] and [Number(v)] of a property that may be [undefined]. *)
Definition String_ (v : jsval) : result jsstring :=
  match v with
  | None => Val (js "undefined")
  | Some j => ToString j
  end.

Definition Number_ (v : jsval) : result jsnum :=
  match v with
  | None => Val NaN
  | Some j => ToNumber j
  end.

End Coercions.

(* ================================================================== *)
(** * String helpers *)

Section Strings.
Local Open Scope N_scope.

(** WhiteSpace and LineTerminator of ECMAScript, which [trim] strips. *)
Definition is_space (c : N) : bool :=
  ((9 <=? c) && (c <=? 13)) || (c =? 32) || (c =? 160) || (c =? 5760)
  || ((8192 <=? c) && (c <=? 8202)) || (c =? 8232) || (c =? 8233)
  || (c =? 8239) || (c =? 8287) || (c =? 12288) || (c =? 65279).

Fixpoint trimStart (s : jsstring) : jsstring :=
  match s with
  | c :: rest => if is_space c then trimStart rest else s
  | [] => []
  end.

Definition trim (s : jsstring) : jsstring :=
  rev (trimStart (rev (trimStart s))).

Definition lower_ascii (c : N) : N :=
  if (65 <=? c) && (c <=? 90) then c + 32 else c.

Definition is_ascii (c : N) : bool := c <? 128.

Definition toLowerCase {node : Runtime} (s : jsstring) : jsstring :=
  if forallb is_ascii s then map lower_ascii s else toLowerCase_unicode s.

(** [s.split("@")]: the pieces between the separators, at least one. *)
Fixpoint split_at (s : jsstring) : list jsstring :=
  match s with
  | [] => [[]]
  | c :: rest =>
      if c =? 64 then [] :: split_at rest
      else
        match split_at rest with
        | piece :: pieces => (c :: piece) :: pieces
        | [] => [[c]]
        end
  end.

(** [esc], lines 43-47. *)
Definition esc_char (c : N) : jsstring :=
  if c =? 38 then js "&amp;"
  else if c =? 60 then js "&lt;"
  else if c =? 62 then js "&gt;"
  else if c =? 34 then js "&quot;"
  else if c =? 39 then js "&#39;"
  else [c].

Definition esc (s : jsstring) : jsstring := flat_map esc_char s.

(** [maskEmail], lines 49-54.  [local] and [domain] are the first two
    pieces of the split; [domain] is [undefined] when there is one piece
    only, and [!domain] also holds of the empty string. *)
Definition maskEmail (email : jsstring) : jsstring :=
  let pieces := split_at email in
  let local := nth 0 pieces [] in
  let domain := nth_error pieces 1 in
  match domain with
  | None | Some [] => email
  | Some domain =>
      if (N.of_nat (length local) <=? 2)
      then (match local with c :: _ => [c] | [] => [] end) ++ js "***@" ++ domain
      else firstn 2 local ++ js "***@" ++ domain
  end.

End Strings.

(* ================================================================== *)
(** * The suppression table and [saveSuppression], lines 56-75 *)

Record Row : Type := {
  row_email : jsstring;
  row_source : jsstring;
  row_reason : jsstring;
  row_ts : Z
}.

Definition Table := list Row.

(** The two statements the source sends. *)
Inductive Query : Type :=
| CreateTableIfNotExists
| InsertOnConflictUpdate (email source : jsstring).

(** [INSERT ... ON CONFLICT (email) DO UPDATE SET source, reason, ts]:
    the row with this key is rewritten where it stands, or a new row is
    added when no row has the key. *)
Fixpoint upsert (email source reason : jsstring) (now : Z) (t : Table) : Table :=
  match t with
  | [] =>
      [{| row_email := email; row_source := source;
          row_reason := reason; row_ts := now |}]
  | r :: rest =>
      if jsstring_eqb (row_email r) email
      then {| row_email := row_email r; row_source := source;
              row_reason := reason; row_ts := now |} :: rest
      else r :: upsert email source reason now rest
  end.

(** What a statement does to the database; [None] is the error of
    inserting into a table that does not exist. *)
Definition exec (q : Query) (now : Z) (db : option Table) : option (option Table) :=
  match q, db with
  | CreateTableIfNotExists, None => Some (Some [])
  | CreateTableIfNotExists, Some t => Some (Some t)
  | InsertOnConflictUpdate email source, Some t =>
      Some (Some (upsert email source (js "user-request") now t))
  | InsertOnConflictUpdate _ _, None => None
  end.

(** What lies outside the handler and changes while it runs. *)
Record World : Type := {
  suppression : option Table;   (** the table, once created *)
  db_now : Z;                   (** PostgreSQL's [now()] *)
  outages : list bool;          (** for each coming [pool.query], whether
                                    the backend rejects it *)
  statements : list Query;      (** the statements sent so far *)
  console : list (jsstring * exn) (** the calls of [console.error] *)
}.

(** [await pool.query(q)]. *)
Definition pool_query (q : Query) (w : World) : result unit * World :=
  let sent :=
    {| suppression := suppression w; db_now := db_now w;
       outages := tl (outages w); statements := statements w ++ [q];
       console := console w |} in
  match outages w with
  | true :: _ => (Throws QueryFailed, sent)
  | _ =>
      match exec q (db_now w) (suppression w) with
      | None => (Throws QueryFailed, sent)
      | Some db =>
          (Val tt,
           {| suppression := db; db_now := db_now sent;
              outages := outages sent; statements := statements sent;
              console := console sent |})
      end
  end.

Definition saveSuppression (pool : bool) (email source : jsstring)
    (w : World) : result unit * World :=
  if negb pool then (Val tt, w)
  else
    match pool_query CreateTableIfNotExists w with
    | (Throws e, w1) => (Throws e, w1)
    | (Val _, w1) => pool_query (InsertOnConflictUpdate email source) w1
    end.

Definition console_error (msg : jsstring) (e : exn) (w : World) : World :=
  {| suppression := suppression w; db_now := db_now w; outages := outages w;
     statements := statements w; console := console w ++ [(msg, e)] |}.

(* ================================================================== *)
(** * The module's constants, lines 7-26 *)

Record ProcessEnv : Type := {
  env_UNSUB_SECRET : option jsstring;
  env_DATABASE_URL : option jsstring;
  env_VISIBLE_UNSUB_REDIRECT : option jsstring
}.

(** [v || d] for an environment variable [v]. *)
Definition or_else (v : option jsstring) (d : jsstring) : jsstring :=
  match v with
  | Some (c :: s) => c :: s
  | _ => d
  end.

Record Constants : Type := {
  UNSUB_SECRET : jsstring;
  pool : bool;                      (** whether [pool] is defined *)
  VISIBLE_UNSUB_REDIRECT : jsstring
}.

(** [global_pool]: whether [globalThis.__unsub_pool] holds a pool already. *)
Definition load (env : ProcessEnv) (global_pool : bool) : Constants :=
  {| UNSUB_SECRET := or_else (env_UNSUB_SECRET env) (js "CHANGE_THIS_SECRET");
     pool := global_pool
             || negb (Nat.eqb (length (or_else (env_DATABASE_URL env) [])) 0);
     VISIBLE_UNSUB_REDIRECT := or_else (env_VISIBLE_UNSUB_REDIRECT env) [] |}.

(* ================================================================== *)
(** * Requests and responses *)

(** [req.query.token]: missing, one string, or an array of strings. *)
Inductive QueryParam : Type :=
| Absent
| One (s : jsstring)
| Many (l : list jsstring).

Record Request : Type := {
  method : jsstring;
  query_token : QueryParam
}.

(** What [res.end] or [res.send] is given.  [ConfirmationPage shown] is the
    template literal of lines 155-195, [shown] being the text it
    interpolates. *)
Inductive Body : Type :=
| NoBody
| Text (s : jsstring)
| ConfirmationPage (shown : jsstring).

(** The response object: the headers set through [setHeader], the status
    and what was sent.  Headers that the framework adds on its own when the
    response goes out are not part of it. *)
Record Response : Type := {
  headers : list (jsstring * jsstring);
  statusCode : Z;
  sent : option Body          (** [None] until [end] or [send] is called *)
}.

(** Header names do not distinguish case; a second [setHeader] of a name
    replaces the first. *)
Definition header_name (name : jsstring) : jsstring := map lower_ascii name.

Definition setHeader (name value : jsstring) (res : Response) : Response :=
  {| headers :=
       (header_name name, value)
         :: filter (fun kv => negb (jsstring_eqb (fst kv) (header_name name)))
              (headers res);
     statusCode := statusCode res;
     sent := sent res |}.

Fixpoint assoc (l : list (jsstring * jsstring)) (k : jsstring) : option jsstring :=
  match l with
  | [] => None
  | (k', v) :: rest => if jsstring_eqb k' k then Some v else assoc rest k
  end.

Definition getHeader (name : jsstring) (res : Response) : option jsstring :=
  assoc (headers res) (header_name name).

Definition status (code : Z) (res : Response) : Response :=
  {| headers := headers res; statusCode := code; sent := sent res |}.

(** [res.end(b)] and [res.send(b)]. *)
Definition send (b : Body) (res : Response) : Response :=
  {| headers := headers res; statusCode := statusCode res; sent := Some b |}.

(* ================================================================== *)
(** * The handler, lines 78-196 *)

Notation "'let!' x ':=' e 'in' k" := (rbind e (fun x => k))
  (at level 10, x name, e at level 100, k at level 200).

(** The verifier's error categories, by the text the handler answers. *)
Definition MissingToken : jsstring := js "missing token".
Definition MalformedToken : jsstring := js "bad token".
Definition SignatureInvalid : jsstring := js "signature".
Definition PayloadInvalid : jsstring := js "payload".
Definition TokenExpired : jsstring := js "expired".

(** Lines 95-105: the token split [payload . signature(32)]; [None] is the
    [catch] branch. *)
Definition split_token (token : jsstring) : option (bytes * bytes) :=
  let buf := base64urlToBuffer token in
  if Nat.ltb (length buf) 33 then None
  else
    let sig := skipn (length buf - 32) buf in
    let sep := nth (length buf - 33) buf x00 in
    if negb (N.eqb (Byte.to_N sep) 46) then None
    else Some (firstn (length buf - 33) buf, sig).

Inductive verdict : Type :=
| Rejected (tag : jsstring)
| Accepted (email : jsstring).

Section Handler.
Context {node : Runtime}.

(** Lines 113-128: the payload, once its signature held.  [now] is the
    value of [Date.now() / 1000]. *)
Definition read_claim (now : jsnum) (raw : bytes) : result verdict :=
  match JSON_parse (utf8_toString raw) with
  | None => Val (Rejected PayloadInvalid)
  | Some payload =>
      let! email := get payload (js "email") in
      if negb (truthy email) then Val (Rejected PayloadInvalid)
      else
        let! exp := get payload (js "exp") in
        if negb (truthy exp) then Val (Rejected PayloadInvalid)
        else
          let! limit := Number_ exp in
          if num_gt now limit then Val (Rejected TokenExpired)
          else
            let! s := String_ email in
            Val (Accepted (toLowerCase (trim s)))
  end.

(** Lines 94-128. *)
Definition verify (secret : jsstring) (now : jsnum) (token : jsstring)
    : result verdict :=
  match split_token token with
  | None => Val (Rejected MalformedToken)
  | Some (raw, sig) =>
      let expected := hmac_sha256 secret raw in
      let! same := safeEqual expected sig in
      if negb same then Val (Rejected SignatureInvalid)
      else read_claim now raw
  end.

(** Lines 86-88: [Array.isArray(q) ? q[0] : q]. *)
Definition token_of (q : QueryParam) : option jsstring :=
  match q with
  | Absent => None
  | One s => Some s
  | Many l => nth_error l 0
  end.

Definition is_POST (req : Request) : bool := jsstring_eqb (method req) (js "POST").
Definition is_GET (req : Request) : bool := jsstring_eqb (method req) (js "GET").

(** Line 132: the provenance tag. *)
Definition source_of (req : Request) : jsstring :=
  if is_POST req then js "one-click" else js "web".

(** Lines 131-135: the write, and the log entry when the write threw. *)
Definition saved (k : Constants) (req : Request) (email : jsstring) (w : World) : World :=
  match saveSuppression (pool k) email (source_of req) w with
  | (Val _, w') => w'
  | (Throws e, w') => console_error (js "suppression save failed:") e w'
  end.

(** Lines 130-195: what follows a verified token. *)
Definition deliver (k : Constants) (req : Request) (res : Response)
    (email : jsstring) (w : World) : result unit * Response * World :=
  let w1 := saved k req email w in
  if is_POST req then (Val tt, send NoBody (status 204 res), w1)
  else
    let masked := maskEmail email in
    if negb (Nat.eqb (length (VISIBLE_UNSUB_REDIRECT k)) 0) then
      match URL_with_params (VISIBLE_UNSUB_REDIRECT k)
              [(js "status", js "success"); (js "email", masked)] with
      | None => (Throws TypeError, res, w1)
      | Some url =>
          (Val tt, send NoBody (status 302 (setHeader (js "Location") url res)), w1)
      end
    else
      (Val tt,
       send (ConfirmationPage (esc (maskEmail email)))
         (status 200
            (setHeader (js "Content-Type") (js "text/html; charset=utf-8") res)),
       w1).

(** The handler: [k] holds the module's constants, [now] is the value of
    [Date.now() / 1000], [res0] the response object as the framework hands
    it over.  The result is how the handler ends, the response object and
    the world it leaves. *)
Definition handler (k : Constants) (now : jsnum) (req : Request)
    (res0 : Response) (w : World) : result unit * Response * World :=
  let res := setHeader (js "Cache-Control") (js "no-store, max-age=0") res0 in
  if negb (is_GET req) && negb (is_POST req) then
    (Val tt,
     send (Text (js "Method Not Allowed"))
       (status 405 (setHeader (js "Allow") (js "GET, POST") res)),
     w)
  else
    match token_of (query_token req) with
    | None | Some [] => (Val tt, send (Text MissingToken) (status 400 res), w)
    | Some token =>
        match verify (UNSUB_SECRET k) now token with
        | Throws e => (Throws e, res, w)
        | Val (Rejected tag) => (Val tt, send (Text tag) (status 400 res), w)
        | Val (Accepted email) => deliver k req res email w
        end
    end.

End Handler.


(* ================================================================== *)
(** * A runtime for concrete runs *)

Module SHA256.
Local Open Scope N_scope.

Definition add32 (a b : N) : N := (a + b) mod 4294967296.
Definition rotr (n x : N) : N :=
  N.lor (N.shiftr x n) (N.shiftl x (32 - n) mod 4294967296).
Definition not32 (x : N) : N := N.lxor x 4294967295.

Definition Ch (x y z : N) : N := N.lxor (N.land x y) (N.land (not32 x) z).
Definition Maj (x y z : N) : N :=
  N.lxor (N.lxor (N.land x y) (N.land x z)) (N.land y z).
Definition Sigma0 (x : N) : N := N.lxor (N.lxor (rotr 2 x) (rotr 13 x)) (rotr 22 x).
Definition Sigma1 (x : N) : N := N.lxor (N.lxor (rotr 6 x) (rotr 11 x)) (rotr 25 x).
Definition sigma0 (x : N) : N := N.lxor (N.lxor (rotr 7 x) (rotr 18 x)) (N.shiftr x 3).
Definition sigma1 (x : N) : N := N.lxor (N.lxor (rotr 17 x) (rotr 19 x)) (N.shiftr x 10).

(** The constants are the leading fraction bits of the square and cube
    roots of the first primes. *)
Definition is_prime (p : nat) : bool :=
  (2 <=? N.of_nat p)
  && forallb (fun d => negb (N.of_nat p mod N.of_nat d =? 0)) (seq 2 (p - 2)).

Definition primes : list N := map N.of_nat (filter is_prime (seq 2 310)).

Fixpoint cube_root_bits (bit : nat) (n r : N) : N :=
  match bit with
  | O => r
  | S bit' =>
      let r' := r + N.shiftl 1 (N.of_nat bit') in
      cube_root_bits bit' n (if r' * r' * r' <=? n then r' else r)
  end.

Definition K : list N :=
  Eval vm_compute in
    map (fun p => cube_root_bits 36 (N.shiftl p 96) 0 mod 4294967296) primes.

Definition H0 : list N :=
  Eval vm_compute in
    map (fun p => N.sqrt (N.shiftl p 64) mod 4294967296) (firstn 8 primes).

Definition be_bytes (width : nat) (x : N) : bytes :=
  map (fun i => byte_of_N (N.shiftr x (8 * N.of_nat i))) (rev (seq 0 width)).

Definition pad (msg : bytes) : bytes :=
  let len := length msg in
  let zeros := ((119 - len mod 64) mod 64)%nat in
  msg ++ x80 :: repeat x00 zeros ++ be_bytes 8 (8 * N.of_nat len).

Fixpoint words (fuel : nat) (bs : bytes) : list N :=
  match fuel, bs with
  | S fuel', a :: b :: c :: d :: rest =>
      (N.shiftl (Byte.to_N a) 24 + N.shiftl (Byte.to_N b) 16
       + N.shiftl (Byte.to_N c) 8 + Byte.to_N d) :: words fuel' rest
  | _, _ => []
  end.

(** The message schedule, latest word first. *)
Fixpoint extend (n : nat) (r : list N) : list N :=
  match n with
  | O => r
  | S n' =>
      extend n'
        (add32 (add32 (sigma1 (nth 1 r 0)) (nth 6 r 0))
               (add32 (sigma0 (nth 14 r 0)) (nth 15 r 0)) :: r)
  end.

Definition round (s : list N) (kw : N * N) : list N :=
  match s with
  | [a; b; c; d; e; f; g; h] =>
      let t1 := add32 (add32 (add32 h (Sigma1 e)) (add32 (Ch e f g) (fst kw))) (snd kw) in
      let t2 := add32 (Sigma0 a) (Maj a b c) in
      [add32 t1 t2; a; b; c; add32 d t1; e; f; g]
  | _ => s
  end.

Definition compress (h : list N) (block : list N) : list N :=
  let w := rev (extend 48 (rev block)) in
  map (fun xy => add32 (fst xy) (snd xy)) (combine h (fold_left round (combine K w) h)).

Fixpoint blocks (fuel : nat) (ws : list N) (h : list N) : list N :=
  match fuel, ws with
  | S fuel', _ :: _ => blocks fuel' (skipn 16 ws) (compress h (firstn 16 ws))
  | _, _ => h
  end.

Definition digest (msg : bytes) : bytes :=
  let p := pad msg in
  let ws := words (length p) p in
  flat_map (be_bytes 4) (blocks (length ws) ws H0).

Definition xor_with (c : N) (key : bytes) : bytes :=
  map (fun b => byte_of_N (N.lxor (Byte.to_N b) c)) key.

Definition hmac (key msg : bytes) : bytes :=
  let k := if (64 <? length key)%nat then digest key else key in
  let k := k ++ repeat x00 (64 - length k) in
  digest (xor_with 92 k ++ digest (xor_with 54 k ++ msg)).

End SHA256.

Module UTF8.
Local Open Scope N_scope.

(** The code points of an octet sequence; an ill-formed part gives U+FFFD.
    [needed] continuation octets are still to come for the code point
    begun in [cp], the next within [lower..upper]. *)
Fixpoint code_points (bs : bytes) (needed : nat) (cp lower upper : N) : list N :=
  match bs with
  | [] => match needed with O => [] | S _ => [65533] end
  | b :: rest =>
      let v := Byte.to_N b in
      let start :=
        if v <? 128 then v :: code_points rest 0 0 128 191
        else if (194 <=? v) && (v <=? 223) then code_points rest 1 (N.land v 31) 128 191
        else if (224 <=? v) && (v <=? 239) then
          code_points rest 2 (N.land v 15)
            (if v =? 224 then 160 else 128) (if v =? 237 then 159 else 191)
        else if (240 <=? v) && (v <=? 244) then
          code_points rest 3 (N.land v 7)
            (if v =? 240 then 144 else 128) (if v =? 244 then 143 else 191)
        else 65533 :: code_points rest 0 0 128 191 in
      match needed with
      | O => start
      | S n =>
          if (lower <=? v) && (v <=? upper) then
            let cp' := cp * 64 + N.land v 63 in
            match n with
            | O => cp' :: code_points rest 0 0 128 191
            | S _ => code_points rest n cp' 128 191
            end
          else 65533 :: start
      end
  end.

Definition units_of (cp : N) : jsstring :=
  if cp <? 65536 then [cp]
  else [55296 + (cp - 65536) / 1024; 56320 + (cp - 65536) mod 1024].

Definition decode (bs : bytes) : jsstring :=
  flat_map units_of (code_points bs 0 0 128 191).

(** The octets of a string; a surrogate without its partner gives U+FFFD. *)
Fixpoint scalars (s : jsstring) : list N :=
  match s with
  | [] => []
  | hi :: rest =>
      if (55296 <=? hi) && (hi <=? 56319) then
        match rest with
        | lo :: rest' =>
            if (56320 <=? lo) && (lo <=? 57343)
            then (65536 + (hi - 55296) * 1024 + (lo - 56320)) :: scalars rest'
            else 65533 :: scalars rest
        | [] => [65533]
        end
      else if (56320 <=? hi) && (hi <=? 57343) then 65533 :: scalars rest
      else hi :: scalars rest
  end.

Definition octets_of (cp : N) : bytes :=
  if cp <? 128 then [byte_of_N cp]
  else if cp <? 2048 then [byte_of_N (192 + cp / 64); byte_of_N (128 + cp mod 64)]
  else if cp <? 65536 then
    [byte_of_N (224 + cp / 4096); byte_of_N (128 + (cp / 64) mod 64);
     byte_of_N (128 + cp mod 64)]
  else
    [byte_of_N (240 + cp / 262144); byte_of_N (128 + (cp / 4096) mod 64);
     byte_of_N (128 + (cp / 64) mod 64); byte_of_N (128 + cp mod 64)].

Definition encode (s : jsstring) : bytes := flat_map octets_of (scalars s).

End UTF8.

Module Double.
Local Open Scope Z_scope.

(** Whether [n/d >= 2^e]. *)
Definition at_least_pow2 (n d e : Z) : bool :=
  if 0 <=? e then d * 2 ^ e <=? n else d <=? n * 2 ^ (- e).

(** The double nearest to [n/d], ties to the even significand, for
    positive [n] and [d]. *)
Definition nearest (negative : bool) (n d : Z) : jsnum :=
  let e0 := Z.log2 n - Z.log2 d in
  let e := if at_least_pow2 n d e0 then e0 else e0 - 1 in
  if 1023 <? e then Infinity negative
  else
    let k := Z.max (e - 52) (- 1074) in
    let n' := n * 2 ^ Z.max 0 (- k) in
    let d' := d * 2 ^ Z.max 0 k in
    let m := n' / d' in
    let r := n' mod d' in
    let m' :=
      if d' <? 2 * r then m + 1
      else if d' =? 2 * r then m + m mod 2
      else m in
    if (e =? 1023) && (m' =? 2 ^ 53) then Infinity negative
    else
      let v := if 0 <=? k then Qmake (m' * 2 ^ k) 1
               else Qred (Qmake m' (Z.to_pos (2 ^ (- k)))) in
      Finite (if negative then Qopp v else v).

(** The Number a decimal literal [m * 10^scale] denotes. *)
Definition of_decimal (negative : bool) (m : N) (scale : Z) : jsnum :=
  if (m =? 0)%N then Finite 0
  else if 400 <? scale then Infinity negative
  else if scale <? - (400 + Z.of_N (N.log2 m)) then Finite 0
  else if 0 <=? scale then nearest negative (Z.of_N m * 10 ^ scale) 1
  else nearest negative (Z.of_N m) (10 ^ (- scale)).

Definition of_Q (q : Q) : jsnum :=
  match Qnum q with
  | Z0 => Finite 0
  | Zpos n => nearest false (Zpos n) (Zpos (Qden q))
  | Zneg n => nearest true (Zpos n) (Zpos (Qden q))
  end.

End Double.

Module Json.
Local Open Scope N_scope.

Definition is_ws (c : N) : bool := (c =? 9) || (c =? 10) || (c =? 13) || (c =? 32).
Definition is_digit (c : N) : bool := (48 <=? c) && (c <=? 57).

Fixpoint skip_ws (s : jsstring) : jsstring :=
  match s with
  | c :: rest => if is_ws c then skip_ws rest else s
  | [] => []
  end.

(** A run of digits: its value after [acc], how many there are, the rest. *)
Fixpoint digits (s : jsstring) (acc : N) (count : nat) : N * nat * jsstring :=
  match s with
  | c :: rest => if is_digit c then digits rest (10 * acc + (c - 48)) (S count)
                 else (acc, count, s)
  | [] => (acc, count, [])
  end.

(** The fraction and the exponent that may follow the integer part [m]. *)
Definition fraction_exponent (negative : bool) (m : N) (s : jsstring)
    : option (jsnum * jsstring) :=
  let after_fraction :=
    match s with
    | 46 :: rest =>
        match digits rest m 0 with
        | (_, O, _) => None
        | (m', places, rest') => Some (m', Z.of_nat places, rest')
        end
    | _ => Some (m, 0%Z, s)
    end in
  match after_fraction with
  | None => None
  | Some (m', places, rest) =>
      let exponent (sign : Z) (t : jsstring) :=
        match digits t 0 0 with
        | (_, O, _) => None
        | (e, _, rest') =>
            Some (Double.of_decimal negative m' (sign * Z.of_N e - places)%Z, rest')
        end in
      match rest with
      | c :: t =>
          if (c =? 101) || (c =? 69) then
            match t with
            | 43 :: t' => exponent 1%Z t'
            | 45 :: t' => exponent (-1)%Z t'
            | _ => exponent 1%Z t
            end
          else Some (Double.of_decimal negative m' (- places)%Z, rest)
      | [] => Some (Double.of_decimal negative m' (- places)%Z, rest)
      end
  end.

Definition number (s : jsstring) : option (jsnum * jsstring) :=
  let (negative, s1) := match s with 45 :: r => (true, r) | _ => (false, s) end in
  match s1 with
  | 48 :: rest => fraction_exponent negative 0 rest
  | c :: _ =>
      if is_digit c then
        match digits s1 0 0 with
        | (m, _, rest) => fraction_exponent negative m rest
        end
      else None
  | [] => None
  end.

Definition hex_digit (c : N) : option N :=
  if is_digit c then Some (c - 48)
  else if (97 <=? c) && (c <=? 102) then Some (c - 87)
  else if (65 <=? c) && (c <=? 70) then Some (c - 55)
  else None.

(** The characters of a string up to its closing quote. *)
Fixpoint string_body (s : jsstring) (acc : jsstring) : option (jsstring * jsstring) :=
  match s with
  | [] => None
  | 34 :: rest => Some (rev acc, rest)
  | 92 :: 117 :: a :: b :: c :: d :: rest =>
      match hex_digit a, hex_digit b, hex_digit c, hex_digit d with
      | Some a, Some b, Some c, Some d =>
          string_body rest ((4096 * a + 256 * b + 16 * c + d) :: acc)
      | _, _, _, _ => None
      end
  | 92 :: e :: rest =>
      let plain (c : N) := string_body rest (c :: acc) in
      if (e =? 34) || (e =? 92) || (e =? 47) then plain e
      else if e =? 98 then plain 8
      else if e =? 102 then plain 12
      else if e =? 110 then plain 10
      else if e =? 114 then plain 13
      else if e =? 116 then plain 9
      else None
  | c :: rest => if c <? 32 then None else string_body rest (c :: acc)
  end.

(** A later member of the same name replaces the value of the earlier. *)
Fixpoint set_member (k : jsstring) (v : JSON) (members : list (jsstring * JSON))
    : list (jsstring * JSON) :=
  match members with
  | [] => [(k, v)]
  | (k', v') :: rest =>
      if jsstring_eqb k' k then (k', v) :: rest else (k', v') :: set_member k v rest
  end.

Fixpoint value (fuel : nat) (s : jsstring) : option (JSON * jsstring) :=
  match fuel with
  | O => None
  | S fuel' =>
      let elements :=
        fix elements (fuel : nat) (s : jsstring) (acc : list JSON) {struct fuel} :=
          match fuel with
          | O => None
          | S fuel'' =>
              match value fuel' s with
              | None => None
              | Some (v, rest) =>
                  match skip_ws rest with
                  | 44 :: rest' => elements fuel'' rest' (v :: acc)
                  | 93 :: rest' => Some (JArr (rev (v :: acc)), rest')
                  | _ => None
                  end
              end
          end in
      let members :=
        fix members (fuel : nat) (s : jsstring) (acc : list (jsstring * JSON)) {struct fuel} :=
          match fuel with
          | O => None
          | S fuel'' =>
              match skip_ws s with
              | 34 :: rest =>
                  match string_body rest [] with
                  | None => None
                  | Some (k, rest1) =>
                      match skip_ws rest1 with
                      | 58 :: rest2 =>
                          match value fuel' rest2 with
                          | None => None
                          | Some (v, rest3) =>
                              match skip_ws rest3 with
                              | 44 :: rest4 => members fuel'' rest4 (set_member k v acc)
                              | 125 :: rest4 => Some (JObj (set_member k v acc), rest4)
                              | _ => None
                              end
                          end
                      | _ => None
                      end
                  end
              | _ => None
              end
          end in
      match skip_ws s with
      | 110 :: 117 :: 108 :: 108 :: rest => Some (JNull, rest)
      | 116 :: 114 :: 117 :: 101 :: rest => Some (JBool true, rest)
      | 102 :: 97 :: 108 :: 115 :: 101 :: rest => Some (JBool false, rest)
      | 34 :: rest =>
          match string_body rest [] with
          | Some (str, rest') => Some (JStr str, rest')
          | None => None
          end
      | 91 :: rest =>
          match skip_ws rest with
          | 93 :: rest' => Some (JArr [], rest')
          | _ => elements (length s) rest []
          end
      | 123 :: rest =>
          match skip_ws rest with
          | 125 :: rest' => Some (JObj [], rest')
          | _ => members (length s) rest []
          end
      | t =>
          match number t with
          | Some (n, rest) => Some (JNum n, rest)
          | None => None
          end
      end
  end.

Definition parse (text : jsstring) : option JSON :=
  match value (S (length text)) text with
  | Some (v, rest) => match skip_ws rest with [] => Some v | _ => None end
  | None => None
  end.

End Json.

Module NumberText.
Local Open Scope N_scope.

(** Digits in a radix of 2, 8 or 16; [None] on any other character. *)
Fixpoint radix_digits (radix : N) (s : jsstring) (acc : N) : option N :=
  match s with
  | [] => Some acc
  | c :: rest =>
      match Json.hex_digit c with
      | Some d => if d <? radix then radix_digits radix rest (radix * acc + d) else None
      | None => None
      end
  end.

(** An unsigned decimal literal that must end the string. *)
Definition decimal (negative : bool) (s : jsstring) : jsnum :=
  match Json.digits s 0 0 with
  | (m, ci, rest) =>
      let '(m', cf, rest') :=
        match rest with
        | 46 :: t => Json.digits t m 0
        | _ => (m, O, rest)
        end in
      if Nat.eqb (ci + cf) 0 then NaN
      else
        let finish (sign : Z) (t : jsstring) :=
          match Json.digits t 0 0 with
          | (_, O, _) => NaN
          | (e, _, []) => Double.of_decimal negative m' (sign * Z.of_N e - Z.of_nat cf)%Z
          | _ => NaN
          end in
        match rest' with
        | [] => Double.of_decimal negative m' (- Z.of_nat cf)%Z
        | c :: t =>
            if (c =? 101) || (c =? 69) then
              match t with
              | 43 :: t' => finish 1%Z t'
              | 45 :: t' => finish (-1)%Z t'
              | _ => finish 1%Z t
              end
            else NaN
        end
  end.

Definition radix_literal (radix : N) (s : jsstring) : jsnum :=
  match s, radix_digits radix s 0 with
  | _ :: _, Some v => Double.of_Q (Qmake (Z.of_N v) 1)
  | _, _ => NaN
  end.

(** [Number(s)]. *)
Definition to_number (s : jsstring) : jsnum :=
  match trim s with
  | [] => Finite 0
  | 48 :: x :: rest =>
      if (x =? 120) || (x =? 88) then radix_literal 16 rest
      else if (x =? 111) || (x =? 79) then radix_literal 8 rest
      else if (x =? 98) || (x =? 66) then radix_literal 2 rest
      else decimal false (48 :: x :: rest)
  | 43 :: t =>
      if jsstring_eqb t (js "Infinity") then Infinity false else decimal false t
  | 45 :: t =>
      if jsstring_eqb t (js "Infinity") then Infinity true else decimal true t
  | t => if jsstring_eqb t (js "Infinity") then Infinity false else decimal false t
  end.

Fixpoint decimal_digits (fuel : nat) (n : N) (acc : jsstring) : jsstring :=
  match fuel with
  | O => acc
  | S fuel' =>
      if n <? 10 then (48 + n) :: acc
      else decimal_digits fuel' (n / 10) ((48 + n mod 10) :: acc)
  end.

Definition digits_of (n : N) : jsstring := decimal_digits (S (N.to_nat (N.log2 n))) n [].

(** [q * 10^e] for a positive [q]. *)
Definition scale10 (q : Q) (e : Z) : Q :=
  if (0 <=? e)%Z then Qmult q (Qmake (10 ^ e) 1) else Qdiv q (Qmake (10 ^ (- e)) 1).

Definition floorQ (q : Q) : Z := (Qnum q / Zpos (Qden q))%Z.

(** The [n] with [10^(n-1) <= q < 10^n], searched from [n]. *)
Fixpoint magnitude (fuel : nat) (q : Q) (n : Z) : Z :=
  match fuel with
  | O => n
  | S fuel' =>
      if Qle_bool (Qmake (10 ^ n) 1) q && (0 <=? n)%Z then magnitude fuel' q (n + 1)%Z
      else if Qle_bool 1 (scale10 q (1 - n)) then n
      else magnitude fuel' q (n - 1)%Z
  end.

Definition same (a : jsnum) (q : Q) : bool :=
  match a with
  | Finite p => Qeq_bool p q
  | _ => false
  end.

(** The shortest digit string [s], of [k] digits, with [s * 10^(n-k)] read
    back as [q]; of two such strings the one nearer to [q]. *)
Fixpoint shortest (tries : nat) (k : Z) (q : Q) (n : Z) : N * Z * Z :=
  match tries with
  | O => (0, k, n)
  | S tries' =>
      let lo := floorQ (scale10 q (k - n)) in
      let hi := (lo + 1)%Z in
      let ok (s : Z) :=
        (10 ^ (k - 1) <=? s)%Z
        && same (Double.of_Q (scale10 (Qmake s 1) (n - k))) q in
      let nearer_hi :=
        Qle_bool (Qminus (scale10 (Qmake hi 1) (n - k)) q)
                 (Qminus q (scale10 (Qmake lo 1) (n - k))) in
      let pick (s : Z) :=
        if (s =? 10 ^ k)%Z then (Z.to_N (10 ^ (k - 1)), k, (n + 1)%Z)
        else (Z.to_N s, k, n) in
      if ok lo && ok hi then pick (if nearer_hi then hi else lo)
      else if ok lo then pick lo
      else if ok hi then pick hi
      else shortest tries' (k + 1)%Z q n
  end.

Definition positive_text (q : Q) : jsstring :=
  let '(s, k, n) := shortest 17 1 q (magnitude 700 q 1) in
  let ds := digits_of s in
  if (k <=? n)%Z && (n <=? 21)%Z then ds ++ repeat 48 (Z.to_nat (n - k))
  else if (0 <? n)%Z && (n <=? 21)%Z then
    firstn (Z.to_nat n) ds ++ 46 :: skipn (Z.to_nat n) ds
  else if (-6 <? n)%Z && (n <=? 0)%Z then
    48 :: 46 :: repeat 48 (Z.to_nat (- n)) ++ ds
  else
    let e := (n - 1)%Z in
    let mantissa :=
      match ds with
      | d :: (_ :: _) as more => d :: 46 :: more
      | _ => ds
      end in
    mantissa ++ 101 :: (if (0 <=? e)%Z then 43 else 45) :: digits_of (Z.to_N (Z.abs e)).

(** [String(n)]. *)
Definition of_number (x : jsnum) : jsstring :=
  match x with
  | NaN => js "NaN"
  | Infinity false => js "Infinity"
  | Infinity true => js "-Infinity"
  | Finite q =>
      match Qnum q with
      | Z0 => js "0"
      | Zpos _ => positive_text q
      | Zneg _ => 45 :: positive_text (Qopp q)
      end
  end.

End NumberText.

Module Url.
Local Open Scope N_scope.

Definition hex_char (d : N) : N := if d <? 10 then 48 + d else 55 + d.

(** [application/x-www-form-urlencoded] text of a parameter value. *)
Definition form_octet (b : byte) : jsstring :=
  let c := Byte.to_N b in
  if ((48 <=? c) && (c <=? 57)) || ((65 <=? c) && (c <=? 90))
     || ((97 <=? c) && (c <=? 122))
     || (c =? 42) || (c =? 45) || (c =? 46) || (c =? 95)
  then [c]
  else if c =? 32 then [43]
  else [37; hex_char (c / 16); hex_char (c mod 16)].

Definition form_text (s : jsstring) : jsstring :=
  flat_map form_octet (UTF8.encode s).

Fixpoint starts_with (prefix s : jsstring) : option jsstring :=
  match prefix, s with
  | [], _ => Some s
  | p :: prefix', c :: s' => if p =? c then starts_with prefix' s' else None
  | _ :: _, [] => None
  end.

Definition after_scheme (base : jsstring) : option jsstring :=
  match starts_with (js "https://") base with
  | Some rest => Some rest
  | None => starts_with (js "http://") base
  end.

Fixpoint query (params : list (jsstring * jsstring)) : jsstring :=
  match params with
  | [] => []
  | [(k, v)] => form_text k ++ 61 :: form_text v
  | (k, v) :: more => form_text k ++ 61 :: form_text v ++ 38 :: query more
  end.

(** An [http] or [https] address with a host and neither query nor
    fragment, extended by the parameters; any other text is refused. *)
Definition with_params (base : jsstring) (params : list (jsstring * jsstring))
    : option jsstring :=
  match after_scheme base with
  | Some (h :: rest) =>
      if forallb (fun c => (32 <? c) && (c <? 127) && negb (c =? 63) && negb (c =? 35)
                           && negb (c =? 92))
           (h :: rest)
         && negb (h =? 47)
      then
        Some (base ++ (if existsb (N.eqb 47) rest then [] else [47])
                   ++ 63 :: query params)
      else None
  | _ => None
  end.

End Url.

(** Lower case of the code units of Latin-1 and of basic Cyrillic; every
    other code unit is left as it is. *)
Definition lower_unit (c : N) : N :=
  if ((65 <=? c) && (c <=? 90))%N then (c + 32)%N
  else if ((192 <=? c) && (c <=? 222) && negb (c =? 215))%N then (c + 32)%N
  else if ((1040 <=? c) && (c <=? 1071))%N then (c + 32)%N
  else if ((1024 <=? c) && (c <=? 1039))%N then (c + 80)%N
  else c.

(** A runtime to run the handler on concrete requests.  The keyed hash is
    HMAC (RFC 2104) over SHA-256 (FIPS 180-4) with the key in UTF-8; octets
    are read as UTF-8 with U+FFFD for ill-formed parts; JSON text is read
    by the ECMA-404 grammar and Numbers are rounded to the nearest double,
    as they are printed in the shortest digits that read back.  Case
    folding beyond Latin-1 and Cyrillic, and addresses other than plain
    [http(s)] ones, are outside what this runtime covers. *)
Definition reference : Runtime := {|
  hmac_sha256 := fun key data => SHA256.hmac (UTF8.encode key) data;
  utf8_toString := UTF8.decode;
  JSON_parse := Json.parse;
  Number_toString := NumberText.of_number;
  StringToNumber := NumberText.to_number;
  toLowerCase_unicode := map lower_unit;
  URL_with_params := Url.with_params
|}.

(** The code units of a literal written with an apostrophe for each
    double quote. *)
Definition quoted (s : string) : jsstring :=
  map (fun c => if N.eqb c 39 then 34%N else c) (js s).

(** The octets of an ASCII literal. *)
Definition ascii_bytes (s : string) : bytes :=
  map byte_of_ascii (list_ascii_of_string s).

(* ================================================================== *)
(** * Vocabulary of the statements *)

(** The response once line 79 has run. *)
Definition no_store (res : Response) : Response :=
  setHeader (js "Cache-Control") (js "no-store, max-age=0") res.

(** The request is a GET or a POST and its token is the non-empty string
    [token]. *)
Definition carries (req : Request) (token : jsstring) : Prop :=
  is_GET req || is_POST req = true
  /\ token_of (query_token req) = Some token
  /\ token <> [].

(** The token decodes to [raw], a separator and the keyed hash of [raw]:
    it passes the split and the signature check. *)
Definition signed {node : Runtime} (secret token : jsstring) (raw : bytes) : Prop :=
  base64urlToBuffer token = raw ++ x2e :: hmac_sha256 secret raw
  /\ length (hmac_sha256 secret raw) = 32.

(** The answer to a token the verifier turns down. *)
Definition refusal (tag : jsstring) (res : Response) : Response :=
  send (Text tag) (status 400 (no_store res)).

(** One bit of one octet inverted. *)
Definition flip_bit (i : nat) (bit : N) (l : bytes) : bytes :=
  firstn i l
    ++ match skipn i l with
       | b :: rest => byte_of_N (N.lxor (Byte.to_N b) (N.shiftl 1 bit)) :: rest
       | [] => []
       end.

(** The rows of a table under one key. *)
Definition rows_of (email : jsstring) (t : Table) : list Row :=
  filter (fun r => jsstring_eqb (row_email r) email) t.

(** The primary key: no two rows share an email. *)
Definition unique_keys (t : Table) : Prop := NoDup (map row_email t).

(** The table as [CREATE TABLE IF NOT EXISTS] leaves it. *)
Definition created (db : option Table) : Table :=
  match db with
  | Some t => t
  | None => []
  end.

Definition at_time (now : Z) (w : World) : World :=
  {| suppression := suppression w; db_now := now; outages := outages w;
     statements := statements w; console := console w |}.

(** Calls of [saveSuppression] for one address, one after the other, each
    with its source and the database time it runs at. *)
Fixpoint replay (email : jsstring) (calls : list (jsstring * Z)) (w : World)
  : list (result unit) * World :=
  match calls with
  | [] => ([], w)
  | (source, t) :: later =>
      let (r, w1) := saveSuppression true email source (at_time t w) in
      let (rs, w2) := replay email later w1 in
      (r :: rs, w2)
  end.

(** Neither [null], nor absent, nor the empty string: the reading of
    "present and non-empty/non-null" that counts the Number 0 as present. *)
Definition present_nonempty (v : jsval) : bool :=
  match v with
  | None => false
  | Some JNull => false
  | Some (JStr []) => false
  | Some _ => true
  end.

Definition to_standard (c : N) : N :=
  let c' := if N.eqb c 45 then 43%N else c in
  if N.eqb c' 95 then 47%N else c'.

Definition bytes_eqb (a b : bytes) : bool :=
  if list_eq_dec Byte.byte_eq_dec a b then true else false.

Definition all_bytes : list byte := map byte_of_N (map N.of_nat (seq 0 256)).


(** ** Vocabulary of the further properties *)

(** The five characters [esc] replaces, and the four of them that open or
    close markup or an attribute value. *)
Definition needs_escape (c : N) : bool :=
  (N.eqb c 38 || N.eqb c 60 || N.eqb c 62 || N.eqb c 34 || N.eqb c 39)%bool.

Definition is_markup (c : N) : bool :=
  (N.eqb c 60 || N.eqb c 62 || N.eqb c 34 || N.eqb c 39)%bool.

(** The entities of [esc] read back; any other text is kept. *)
Fixpoint unesc (s : jsstring) : jsstring :=
  match s with
  | [] => []
  | c :: rest =>
      if N.eqb c 38 then
        match rest with
        | 97 :: 109 :: 112 :: 59 :: r => 38 :: unesc r
        | 108 :: 116 :: 59 :: r => 60 :: unesc r
        | 103 :: 116 :: 59 :: r => 62 :: unesc r
        | 113 :: 117 :: 111 :: 116 :: 59 :: r => 34 :: unesc r
        | 35 :: 51 :: 57 :: 59 :: r => 39 :: unesc r
        | _ => c :: unesc rest
        end%N
      else c :: unesc rest
  end.

(** A character of a token that the base64 reader passes over: it is in
    neither alphabet and is not the padding sign. *)
Definition passed_over (c : N) : bool :=
  match Buffer.unbase64 (to_standard c mod 256) with
  | Some _ => false
  | None => negb (N.eqb (to_standard c mod 256) 61)
  end.

(** No white space at the start of a string. *)
Definition starts_clean (s : jsstring) : Prop :=
  match s with
  | c :: _ => is_space c = false
  | [] => True
  end.

(** Line 128 on a string: [s.trim().toLowerCase()]. *)
Definition normalize {node : Runtime} (s : jsstring) : jsstring :=
  toLowerCase (trim s).

(** A token whose [email] is an object. *)
Definition object_payload : bytes :=
  UTF8.encode (quoted "{'email':{'name':'Jane'},'exp':4102444800}").

(** The rows of a table under every other key. *)
Definition rows_beside (email : jsstring) (t : Table) : list Row :=
  filter (fun r => negb (jsstring_eqb (row_email r) email)) t.

(** A backend that answers. *)
Definition backend_up : World :=
  {| suppression := None; db_now := 1761955200; outages := []; statements := [];
     console := [] |}.

(** A token whose address carries markup. *)
Definition markup_payload : bytes :=
  UTF8.encode (quoted "{'email':'Eve@<script>.Example','exp':4102444800}").

Definition markup_token : jsstring :=
  Issuer.token false markup_payload (@hmac_sha256 reference (js "s3cret") markup_payload).

Definition object_token : jsstring :=
  Issuer.token false object_payload (@hmac_sha256 reference (js "s3cret") object_payload).

(** A human click on the link of the token with markup. *)
Definition markup_click : Request :=
  {| method := js "GET"; query_token := One markup_token |}.

(** A deployment whose redirect address is no address. *)
Definition misdirected : Constants :=
  {| UNSUB_SECRET := js "s3cret"; pool := true;
     VISIBLE_UNSUB_REDIRECT := js "thanks page" |}.

(* ================================================================== *)
(** * Concrete requests *)

(** The scenario of the specification: Jane's address, an expiry on
    1 January 2100, the secret [s3cret]. *)
Definition jane_payload : bytes :=
  UTF8.encode (quoted "{'email':'Jane.Doe@Example.com ','exp':4102444800}").

Definition jane_signature : bytes :=
  @hmac_sha256 reference (js "s3cret") jane_payload.

Definition jane_token : jsstring := Issuer.token false jane_payload jane_signature.

(** Jane's token with the lowest bit of the first signature octet inverted. *)
Definition forged_token : jsstring :=
  Issuer.token false jane_payload (flip_bit 0 0 jane_signature).

(** A token whose expiry is no number. *)
Definition never_payload : bytes :=
  UTF8.encode (quoted "{'email':'jane@example.com','exp':'never'}").

Definition never_token : jsstring :=
  Issuer.token false never_payload (@hmac_sha256 reference (js "s3cret") never_payload).

(** A token whose expiry is the Number 0. *)
Definition epoch_payload : bytes :=
  UTF8.encode (quoted "{'email':'a@b.c','exp':0}").

Definition epoch_token : jsstring :=
  Issuer.token false epoch_payload (@hmac_sha256 reference (js "s3cret") epoch_payload).

(** A token whose payload is the JSON text [null]. *)
Definition null_payload : bytes := UTF8.encode (js "null").

Definition null_token : jsstring :=
  Issuer.token false null_payload (@hmac_sha256 reference (js "s3cret") null_payload).

(** A deployment with a secret and a database and no redirect address. *)
Definition deployment : Constants :=
  load {| env_UNSUB_SECRET := Some (js "s3cret");
          env_DATABASE_URL := Some (js "postgres://db.internal/mail");
          env_VISIBLE_UNSUB_REDIRECT := None |} false.

(** The one-click POST of a mail client with Jane's token. *)
Definition one_click : Request :=
  {| method := js "POST"; query_token := One jane_token |}.

Definition fresh_response : Response :=
  {| headers := []; statusCode := 200; sent := None |}.

(** A backend that rejects the next statement. *)
Definition backend_down : World :=
  {| suppression := None; db_now := 0; outages := [true]; statements := [];
     console := [] |}.

(** A clock reading: 1 November 2025, in seconds. *)
Definition a_day_in_2025 : jsnum := Finite 1761955200.

(* ================================================================== *)
(** * Facts *)

Lemma in_all_bytes (b : byte) : In b all_bytes.
Proof.
  unfold all_bytes. apply in_map_iff. exists (Byte.to_N b). split.
  - unfold byte_of_N. pose proof (Byte.to_N_bounded b) as Hb.
    rewrite N.mod_small by lia. now rewrite Byte.of_to_N.
  - apply in_map_iff. exists (Byte.to_nat b). split.
    + now rewrite Byte.to_N_via_nat.
    + apply in_seq. pose proof (Byte.to_nat_bounded b). lia.
Qed.

Lemma forall_bytes (P : byte -> bool) :
  forallb P all_bytes = true -> forall b, P b = true.
Proof.
  intros H b. rewrite forallb_forall in H. apply H, in_all_bytes.
Qed.

Lemma forall_bytes2 (P : byte -> byte -> bool) :
  forallb (fun a => forallb (P a) all_bytes) all_bytes = true ->
  forall a b, P a b = true.
Proof.
  intros H a b. apply forall_bytes with (b := a) in H.
  now apply forall_bytes with (b := b) in H.
Qed.

(** [exhaust P]: a goal [forall a b, P a b = true] (or with one octet),
    settled by running [P] on every octet. *)
Ltac exhaust P :=
  first [ apply (forall_bytes2 P) | apply (forall_bytes P) ];
  vm_compute; reflexivity.

(** ** The base64 reader undoes the issuer's encoding *)

Lemma octet0_sextets (a b : byte) :
  Buffer.octet0 (Issuer.sextet0 a) (Issuer.sextet1 a b) = a.
Proof.
  apply Byte.byte_dec_bl. revert a b.
  exhaust (fun a b => Byte.eqb (Buffer.octet0 (Issuer.sextet0 a) (Issuer.sextet1 a b)) a).
Qed.

Lemma sextet1_low (a b : byte) :
  N.land (Issuer.sextet1 a b) 15 = N.shiftr (Byte.to_N b) 4.
Proof.
  apply N.eqb_eq. revert a b.
  exhaust (fun a b => N.eqb (N.land (Issuer.sextet1 a b) 15) (N.shiftr (Byte.to_N b) 4)).
Qed.

Lemma sextet2_high (b c : byte) :
  N.shiftr (N.land (Issuer.sextet2 b c) 60) 2 = N.land (Byte.to_N b) 15.
Proof.
  apply N.eqb_eq. revert b c.
  exhaust (fun b c => N.eqb (N.shiftr (N.land (Issuer.sextet2 b c) 60) 2)
                         (N.land (Byte.to_N b) 15)).
Qed.

Lemma octet1_sextets (a b c : byte) :
  Buffer.octet1 (Issuer.sextet1 a b) (Issuer.sextet2 b c) = b.
Proof.
  unfold Buffer.octet1. rewrite sextet1_low, sextet2_high.
  apply Byte.byte_dec_bl. revert b.
  exhaust (fun b => Byte.eqb
                       (byte_of_N (N.lor (N.shiftl (N.shiftr (Byte.to_N b) 4) 4)
                                         (N.land (Byte.to_N b) 15))) b).
Qed.

Lemma octet2_sextets (b c : byte) :
  Buffer.octet2 (Issuer.sextet2 b c) (Issuer.sextet3 c) = c.
Proof.
  apply Byte.byte_dec_bl. revert b c.
  exhaust (fun b c => Byte.eqb (Buffer.octet2 (Issuer.sextet2 b c) (Issuer.sextet3 c)) c).
Qed.

Lemma list_ind3 (A : Type) (P : list A -> Prop) :
  P [] -> (forall a, P [a]) -> (forall a b, P [a; b]) ->
  (forall a b c rest, P rest -> P (a :: b :: c :: rest)) ->
  forall l, P l.
Proof.
  intros H0 H1 H2 H3.
  fix IH 1. intros [|a [|b [|c rest]]].
  - exact H0.
  - apply H1.
  - apply H2.
  - apply H3, IH.
Qed.

Lemma octets_sextets_of (bs : bytes) :
  Buffer.octets (Issuer.sextets_of bs) = bs.
Proof.
  induction bs as [|a|a b|a b c rest IH] using list_ind3; cbn [Issuer.sextets_of Buffer.octets].
  - reflexivity.
  - now rewrite octet0_sextets.
  - now rewrite octet0_sextets, octet1_sextets.
  - now rewrite octet0_sextets, octet1_sextets, octet2_sextets, IH.
Qed.

Lemma replace_all_standard (s : jsstring) :
  replace_all 95 47 (replace_all 45 43 s) = map to_standard s.
Proof.
  unfold replace_all. rewrite map_map. reflexivity.
Qed.

Lemma below_64_in (v : N) : (v < 64)%N -> In v (map N.of_nat (seq 0 64)).
Proof.
  intros Hv. apply in_map_iff. exists (N.to_nat v). split.
  - apply N2Nat.id.
  - apply in_seq. lia.
Qed.

Lemma unbase64_url_char (v : N) :
  (v < 64)%N ->
  Buffer.unbase64 (to_standard (Issuer.url_char v) mod 256) = Some v.
Proof.
  intros Hv.
  assert (H : forallb
                (fun v => match Buffer.unbase64 (to_standard (Issuer.url_char v) mod 256) with
                          | Some w => N.eqb w v
                          | None => false
                          end) (map N.of_nat (seq 0 64)) = true)
    by (vm_compute; reflexivity).
  rewrite forallb_forall in H. specialize (H v (below_64_in v Hv)).
  destruct (Buffer.unbase64 _) as [w|]; [|discriminate].
  apply N.eqb_eq in H. now subst.
Qed.

Lemma sextets_of_below_64 (bs : bytes) :
  Forall (fun v => (v < 64)%N) (Issuer.sextets_of bs).
Proof.
  assert (H0 : forall a, (Issuer.sextet0 a < 64)%N).
  { intros a. apply N.ltb_lt. revert a.
    exhaust (fun a => N.ltb (Issuer.sextet0 a) 64). }
  assert (H1 : forall a b, (Issuer.sextet1 a b < 64)%N).
  { intros a b. apply N.ltb_lt. revert a b.
    exhaust (fun a b => N.ltb (Issuer.sextet1 a b) 64). }
  assert (H2 : forall a b, (Issuer.sextet2 a b < 64)%N).
  { intros a b. apply N.ltb_lt. revert a b.
    exhaust (fun a b => N.ltb (Issuer.sextet2 a b) 64). }
  assert (H3 : forall a, (Issuer.sextet3 a < 64)%N).
  { intros a. apply N.ltb_lt. revert a.
    exhaust (fun a => N.ltb (Issuer.sextet3 a) 64). }
  induction bs as [|a|a b|a b c rest IH] using list_ind3; cbn [Issuer.sextets_of];
    repeat constructor; auto.
Qed.

Lemma sextets_encoded (q : list N) (t : jsstring) :
  Forall (fun v => (v < 64)%N) q ->
  Buffer.sextets (map to_standard (map Issuer.url_char q) ++ t) = q ++ Buffer.sextets t.
Proof.
  induction 1 as [|v q Hv _ IH]; [reflexivity|].
  cbn [map app Buffer.sextets]. cbv zeta.
  rewrite (unbase64_url_char v Hv), IH. reflexivity.
Qed.

Lemma sextets_padding (k : nat) : Buffer.sextets (repeat 61%N k) = [].
Proof. destruct k; reflexivity. Qed.

Lemma base64url_roundtrip (padded : bool) (bs : bytes) :
  base64urlToBuffer (Issuer.base64url padded bs) = bs.
Proof.
  unfold base64urlToBuffer, Buffer.from_base64, Issuer.base64url. cbv zeta.
  rewrite replace_all_standard, map_app, <- app_assoc.
  rewrite sextets_encoded by apply sextets_of_below_64.
  assert (Hpad : forall k m, Buffer.sextets (map to_standard (repeat 61%N k) ++ repeat 61%N m) = []).
  { intros k m. rewrite map_repeat. change (to_standard 61) with 61%N.
    rewrite <- repeat_app. apply sextets_padding. }
  destruct padded.
  - rewrite Hpad, app_nil_r. apply octets_sextets_of.
  - cbn [map app]. rewrite sextets_padding, app_nil_r. apply octets_sextets_of.
Qed.

(** ** The fixed-time comparison decides equality *)

Lemma to_N_inj (a b : byte) : Byte.to_N a = Byte.to_N b -> a = b.
Proof.
  intros H. pose proof (Byte.of_to_N a) as Ha. rewrite H, Byte.of_to_N in Ha.
  now injection Ha.
Qed.

Lemma differences_zero (l : list (byte * byte)) (acc : N) :
  fold_left (fun acc xy => N.lor acc (N.lxor (Byte.to_N (fst xy)) (Byte.to_N (snd xy))))
    l acc = 0%N
  <-> acc = 0%N /\ Forall (fun xy => fst xy = snd xy) l.
Proof.
  revert acc. induction l as [|[x y] l IH]; intros acc; cbn [fold_left fst snd].
  - split; [intros ->; auto | tauto].
  - rewrite IH, N.lor_eq_0_iff, N.lxor_eq_0_iff. split.
    + intros [[-> Hxy] Hl]. apply to_N_inj in Hxy. auto.
    + intros [-> Hl]. inversion Hl; subst. cbn in *. subst. auto.
Qed.

Lemma combine_same (a b : bytes) :
  length a = length b ->
  (Forall (fun xy => fst xy = snd xy) (combine a b) <-> a = b).
Proof.
  revert b. induction a as [|x a IH]; intros [|y b] Hlen; try discriminate.
  - split; auto.
  - cbn [combine]. injection Hlen as Hlen. split.
    + intros H. inversion H; subst. cbn in *. subst. f_equal. now apply IH.
    + intros [= -> ->]. constructor; [reflexivity | now apply IH].
Qed.

Lemma timingSafeEqual_spec (a b : bytes) :
  length a = length b -> timingSafeEqual a b = Val (bytes_eqb a b).
Proof.
  intros Hlen. unfold timingSafeEqual, bytes_eqb.
  rewrite Hlen, Nat.eqb_refl. cbn [negb]. f_equal.
  destruct (list_eq_dec Byte.byte_eq_dec a b) as [Heq|Hne].
  - apply N.eqb_eq, differences_zero. split; [reflexivity | now apply combine_same].
  - apply N.eqb_neq. intros H. apply differences_zero in H as [_ H].
    now apply combine_same in H.
Qed.

Lemma safeEqual_spec (a b : bytes) : safeEqual a b = Val (bytes_eqb a b).
Proof.
  unfold safeEqual. cbv zeta.
  destruct (Nat.eqb (length a) (length b)) eqn:Hlen; cbn [negb].
  - apply timingSafeEqual_spec. now apply Nat.eqb_eq.
  - unfold bytes_eqb. destruct (list_eq_dec Byte.byte_eq_dec a b) as [->|]; [|reflexivity].
    now rewrite Nat.eqb_refl in Hlen.
Qed.

Lemma bytes_eqb_true (a b : bytes) : bytes_eqb a b = true <-> a = b.
Proof.
  unfold bytes_eqb. destruct (list_eq_dec Byte.byte_eq_dec a b); split; congruence.
Qed.

Lemma bytes_eqb_false (a b : bytes) : bytes_eqb a b = false <-> a <> b.
Proof.
  unfold bytes_eqb. destruct (list_eq_dec Byte.byte_eq_dec a b); split; congruence.
Qed.

(** ** The token split *)

Lemma app_same_length (A : Type) (a c b d : list A) :
  length a = length c -> a ++ b = c ++ d -> a = c /\ b = d.
Proof.
  revert c. induction a as [|x a IH]; intros [|y c] Hlen Heq; try discriminate.
  - auto.
  - injection Hlen as Hlen. injection Heq as -> Heq.
    destruct (IH c Hlen Heq) as [-> ->]. auto.
Qed.

Lemma split_token_Some (token : jsstring) (raw sig : bytes) :
  split_token token = Some (raw, sig) <->
  base64urlToBuffer token = raw ++ x2e :: sig /\ length sig = 32.
Proof.
  unfold split_token. cbv zeta. set (buf := base64urlToBuffer token).
  destruct (Nat.ltb (length buf) 33) eqn:Hlen.
  - apply Nat.ltb_lt in Hlen. split; [discriminate|].
    intros [Hbuf Hsig]. rewrite Hbuf, length_app in Hlen. cbn in Hlen. lia.
  - apply Nat.ltb_ge in Hlen.
    assert (Hparts : buf = firstn (length buf - 33) buf
                           ++ nth (length buf - 33) buf x00
                           :: skipn (length buf - 32) buf).
    { rewrite <- (firstn_skipn (length buf - 33) buf) at 1. f_equal.
      replace (length buf - 32) with (S (length buf - 33)) by lia.
      destruct (skipn (length buf - 33) buf) as [|x rest] eqn:Hs.
      - apply (f_equal (@length _)) in Hs. rewrite length_skipn in Hs. cbn in Hs. lia.
      - f_equal.
        + rewrite <- (firstn_skipn (length buf - 33) buf) at 2. rewrite Hs.
          rewrite app_nth2; rewrite length_firstn; [|lia].
          now replace (length buf - 33 - Nat.min (length buf - 33) (length buf)) with 0 by lia.
        + change (S (length buf - 33)) with (1 + (length buf - 33)).
          now rewrite <- skipn_skipn, Hs. }
    assert (Hsiglen : length (skipn (length buf - 32) buf) = 32)
      by (rewrite length_skipn; lia).
    destruct (N.eqb (Byte.to_N (nth (length buf - 33) buf x00)) 46) eqn:Hsep; cbn [negb].
    + apply N.eqb_eq in Hsep. change 46%N with (Byte.to_N x2e) in Hsep.
      apply to_N_inj in Hsep. split.
      * intros [= <- <-]. split; [|exact Hsiglen]. now rewrite <- Hsep.
      * intros [Hbuf Hsig]. rewrite Hsep in Hparts. rewrite Hbuf in Hparts at 1.
        assert (Hl : length raw = length (firstn (length buf - 33) buf)).
        { rewrite length_firstn. apply (f_equal (@length _)) in Hbuf.
          rewrite length_app in Hbuf. cbn in Hbuf. lia. }
        apply app_same_length in Hparts; [|exact Hl].
        destruct Hparts as [-> [= ->]]. reflexivity.
    + apply N.eqb_neq in Hsep. split; [discriminate|].
      intros [Hbuf Hsig]. exfalso. apply Hsep.
      rewrite Hbuf, app_nth2; rewrite length_app; cbn; [|lia].
      now replace (length raw + S (length sig) - 33 - length raw) with 0 by lia.
Qed.

(** ** Headers *)

Lemma jsstring_eqb_refl (a : jsstring) : jsstring_eqb a a = true.
Proof. unfold jsstring_eqb. destruct (list_eq_dec N.eq_dec a a); congruence. Qed.

Lemma jsstring_eqb_eq (a b : jsstring) : jsstring_eqb a b = true <-> a = b.
Proof. unfold jsstring_eqb. destruct (list_eq_dec N.eq_dec a b); split; congruence. Qed.

Lemma jsstring_eqb_neq (a b : jsstring) : jsstring_eqb a b = false <-> a <> b.
Proof. unfold jsstring_eqb. destruct (list_eq_dec N.eq_dec a b); split; congruence. Qed.

Lemma getHeader_setHeader (name value : jsstring) (res : Response) :
  getHeader name (setHeader name value res) = Some value.
Proof.
  unfold getHeader, setHeader. cbn [headers assoc]. now rewrite jsstring_eqb_refl.
Qed.

Lemma assoc_filter (l : list (jsstring * jsstring)) (k other : jsstring) :
  other <> k ->
  assoc (filter (fun kv => negb (jsstring_eqb (fst kv) other)) l) k = assoc l k.
Proof.
  intros Hne. induction l as [|[k' v] l IH]; [reflexivity|].
  cbn [filter fst assoc].
  destruct (jsstring_eqb k' other) eqn:Ho; cbn [negb assoc].
  - apply jsstring_eqb_eq in Ho. subst k'.
    apply jsstring_eqb_neq in Hne. now rewrite Hne.
  - now rewrite IH.
Qed.

Lemma getHeader_setHeader_other (name other value : jsstring) (res : Response) :
  header_name other <> header_name name ->
  getHeader name (setHeader other value res) = getHeader name res.
Proof.
  intros Hne. unfold getHeader, setHeader. cbn [headers assoc].
  apply jsstring_eqb_neq in Hne as Hb. rewrite Hb. now apply assoc_filter.
Qed.

Lemma getHeader_status (name : jsstring) (code : Z) (res : Response) :
  getHeader name (status code res) = getHeader name res.
Proof. reflexivity. Qed.

Lemma getHeader_send (name : jsstring) (b : Body) (res : Response) :
  getHeader name (send b res) = getHeader name res.
Proof. reflexivity. Qed.

Create Rewrite HintDb response.
#[export] Hint Rewrite getHeader_status getHeader_send : response.

(** ** The handler in terms of the verifier *)

Section HandlerFacts.
Context {node : Runtime}.

Lemma handler_carries (k : Constants) (now : jsnum) (req : Request)
    (res : Response) (w : World) (token : jsstring) :
  carries req token ->
  handler k now req res w =
  match verify (UNSUB_SECRET k) now token with
  | Throws e => (Throws e, no_store res, w)
  | Val (Rejected tag) => (Val tt, refusal tag res, w)
  | Val (Accepted email) => deliver k req (no_store res) email w
  end.
Proof.
  intros (Hmethod & Htoken & Hne). unfold handler. cbv zeta.
  apply orb_true_iff in Hmethod.
  assert (Hm : negb (is_GET req) && negb (is_POST req) = false)
    by (destruct Hmethod as [-> | ->]; cbn; auto using andb_false_r).
  rewrite Hm, Htoken. destruct token as [|c t]; [contradiction|]. reflexivity.
Qed.

Lemma handler_rejected (k : Constants) (now : jsnum) (req : Request)
    (res : Response) (w : World) (token tag : jsstring) :
  carries req token ->
  verify (UNSUB_SECRET k) now token = Val (Rejected tag) ->
  handler k now req res w = (Val tt, refusal tag res, w).
Proof.
  intros Hc Hv. now rewrite (handler_carries k now req res w token Hc), Hv.
Qed.

Lemma handler_accepted (k : Constants) (now : jsnum) (req : Request)
    (res : Response) (w : World) (token email : jsstring) :
  carries req token ->
  verify (UNSUB_SECRET k) now token = Val (Accepted email) ->
  handler k now req res w = deliver k req (no_store res) email w.
Proof.
  intros Hc Hv. now rewrite (handler_carries k now req res w token Hc), Hv.
Qed.

(** The verifier once the token is split. *)
Lemma verify_split (secret : jsstring) (now : jsnum) (token : jsstring) (raw sig : bytes) :
  base64urlToBuffer token = raw ++ x2e :: sig ->
  length sig = 32 ->
  verify secret now token =
  if negb (bytes_eqb (hmac_sha256 secret raw) sig) then Val (Rejected SignatureInvalid)
  else read_claim now raw.
Proof.
  intros Hbuf Hsig. unfold verify.
  rewrite (proj2 (split_token_Some token raw sig) (conj Hbuf Hsig)).
  cbv zeta. rewrite safeEqual_spec. reflexivity.
Qed.

Lemma verify_signed (secret : jsstring) (now : jsnum) (token : jsstring) (raw : bytes) :
  signed secret token raw -> verify secret now token = read_claim now raw.
Proof.
  intros [Hbuf Hlen]. rewrite (verify_split secret now token raw _ Hbuf Hlen).
  assert (H : bytes_eqb (hmac_sha256 secret raw) (hmac_sha256 secret raw) = true)
    by now apply bytes_eqb_true.
  now rewrite H.
Qed.

Lemma read_claim_checked (now : jsnum) (raw : bytes) (payload : JSON)
    (email exp : jsval) :
  JSON_parse (utf8_toString raw) = Some payload ->
  get payload (js "email") = Val email -> truthy email = true ->
  get payload (js "exp") = Val exp -> truthy exp = true ->
  read_claim now raw
  = (let! limit := Number_ exp in
     if num_gt now limit then Val (Rejected TokenExpired)
     else let! s := String_ email in Val (Accepted (toLowerCase (trim s)))).
Proof.
  intros Hparse Hemail Temail Hexp Texp. unfold read_claim.
  rewrite Hparse, Hemail. cbn [rbind]. rewrite Temail. cbn [negb].
  rewrite Hexp. cbn [rbind]. rewrite Texp. reflexivity.
Qed.

Lemma issued_signed (secret : jsstring) (padded : bool) (raw : bytes) :
  length (hmac_sha256 secret raw) = 32 ->
  signed secret (Issuer.token padded raw (hmac_sha256 secret raw)) raw.
Proof.
  intros Hlen. split; [apply base64url_roundtrip | exact Hlen].
Qed.

End HandlerFacts.

(** ** Inverting a bit changes the octet *)

Lemma flipped_octet (b : byte) (bit : N) :
  (bit < 8)%N -> byte_of_N (N.lxor (Byte.to_N b) (N.shiftl 1 bit)) <> b.
Proof.
  intros Hbit.
  assert (H : forallb
                (fun b => forallb
                   (fun bit => negb (Byte.eqb (byte_of_N (N.lxor (Byte.to_N b) (N.shiftl 1 bit))) b))
                   (map N.of_nat (seq 0 8))) all_bytes = true)
    by (vm_compute; reflexivity).
  apply forall_bytes with (b := b) in H. rewrite forallb_forall in H.
  assert (Hin : In bit (map N.of_nat (seq 0 8))).
  { apply in_map_iff. exists (N.to_nat bit). split; [apply N2Nat.id|]. apply in_seq. lia. }
  specialize (H bit Hin). apply negb_true_iff in H. now apply Byte.eqb_false in H.
Qed.

Lemma flip_bit_differs (i : nat) (bit : N) (l : bytes) :
  i < length l -> (bit < 8)%N -> flip_bit i bit l <> l.
Proof.
  intros Hi Hbit Heq. unfold flip_bit in Heq.
  destruct (skipn i l) as [|b rest] eqn:Hs.
  - apply (f_equal (@length _)) in Hs. rewrite length_skipn in Hs. cbn in Hs. lia.
  - assert (Hl : l = firstn i l ++ b :: rest)
      by (rewrite <- Hs; symmetry; apply firstn_skipn).
    pose proof (eq_trans Heq Hl) as Hboth.
    apply app_inv_head in Hboth. injection Hboth as Hboth.
    exact (flipped_octet b bit Hbit Hboth).
Qed.

Lemma flip_bit_length (i : nat) (bit : N) (l : bytes) :
  length (flip_bit i bit l) = length l.
Proof.
  unfold flip_bit. rewrite <- (firstn_skipn i l) at 3.
  rewrite !length_app. f_equal. now destruct (skipn i l).
Qed.

(** ** Splitting at the separator *)

Lemma split_at_plain (s : jsstring) : ~ In 64%N s -> split_at s = [s].
Proof.
  induction s as [|c s IH]; intros Hno; [reflexivity|].
  cbn [split_at]. destruct (N.eqb c 64) eqn:Hc.
  - apply N.eqb_eq in Hc. subst. exfalso. apply Hno. now left.
  - rewrite IH; [reflexivity|]. intros Hin. apply Hno. now right.
Qed.

Lemma split_at_first (local rest : jsstring) :
  ~ In 64%N local -> split_at (local ++ 64%N :: rest) = local :: split_at rest.
Proof.
  induction local as [|c local IH]; intros Hno; [reflexivity|].
  cbn [app split_at]. destruct (N.eqb c 64) eqn:Hc.
  - apply N.eqb_eq in Hc. subst. exfalso. apply Hno. now left.
  - rewrite IH; [reflexivity|]. intros Hin. apply Hno. now right.
Qed.

Lemma maskEmail_domain (s local domain : jsstring) (more : list jsstring) :
  split_at s = local :: domain :: more ->
  domain <> [] ->
  maskEmail s
  = (if Nat.leb (length local) 2 then firstn 1 local else firstn 2 local)
      ++ js "***@" ++ domain.
Proof.
  intros Hsplit Hdom. unfold maskEmail. cbv zeta. rewrite Hsplit.
  cbn [nth nth_error]. destruct domain as [|d domain]; [contradiction|].
  destruct (Nat.leb (length local) 2) eqn:Hlen.
  - apply Nat.leb_le in Hlen.
    assert (Hn : (N.of_nat (length local) <=? 2)%N = true) by (apply N.leb_le; lia).
    rewrite Hn. now destruct local.
  - apply Nat.leb_gt in Hlen.
    assert (Hn : (N.of_nat (length local) <=? 2)%N = false) by (apply N.leb_gt; lia).
    now rewrite Hn.
Qed.

(** ** The table under [INSERT ... ON CONFLICT] *)

Lemma rows_of_absent (email : jsstring) (t : Table) :
  ~ In email (map row_email t) -> rows_of email t = [].
Proof.
  induction t as [|r t IH]; intros Hno; [reflexivity|].
  cbn [rows_of filter]. destruct (jsstring_eqb (row_email r) email) eqn:He.
  - apply jsstring_eqb_eq in He. exfalso. apply Hno. now left.
  - apply IH. intros Hin. apply Hno. now right.
Qed.

Lemma upsert_keys (email source reason : jsstring) (now : Z) (t : Table) :
  map row_email (upsert email source reason now t)
  = if in_dec (list_eq_dec N.eq_dec) email (map row_email t)
    then map row_email t
    else map row_email t ++ [email].
Proof.
  induction t as [|r t IH]; [reflexivity|].
  cbn [upsert map]. destruct (jsstring_eqb (row_email r) email) eqn:He.
  - apply jsstring_eqb_eq in He. cbn [map row_email].
    destruct (in_dec (list_eq_dec N.eq_dec) email (row_email r :: map row_email t)) as [_|Hno]; [reflexivity|].
    exfalso. apply Hno. now left.
  - apply jsstring_eqb_neq in He. cbn [map]. rewrite IH.
    destruct (in_dec (list_eq_dec N.eq_dec) email (map row_email t)) as [Hin|Hno];
      destruct (in_dec (list_eq_dec N.eq_dec) email (row_email r :: map row_email t)) as [Hin'|Hno'];
      try reflexivity.
    + exfalso. apply Hno'. now right.
    + exfalso. destruct Hin' as [Heq|Hin']; [now apply He | now apply Hno].
Qed.

Lemma upsert_unique (email source reason : jsstring) (now : Z) (t : Table) :
  unique_keys t -> unique_keys (upsert email source reason now t).
Proof.
  unfold unique_keys. intros Hu. rewrite upsert_keys.
  destruct (in_dec (list_eq_dec N.eq_dec) email (map row_email t)) as [Hin|Hno]; [exact Hu|].
  apply NoDup_app; [exact Hu | repeat constructor; intros [] | ].
  intros x Hx [<-|[]]. now apply Hno.
Qed.

Lemma upsert_rows (email source reason : jsstring) (now : Z) (t : Table) :
  unique_keys t ->
  rows_of email (upsert email source reason now t)
  = [{| row_email := email; row_source := source;
        row_reason := reason; row_ts := now |}].
Proof.
  unfold unique_keys. induction t as [|r t IH]; intros Hu.
  - cbn [upsert rows_of filter row_email]. now rewrite jsstring_eqb_refl.
  - cbn [map] in Hu. inversion Hu as [|k ks Hnotin Hu']; subst.
    cbn [upsert]. destruct (jsstring_eqb (row_email r) email) eqn:He.
    + apply jsstring_eqb_eq in He. cbn [rows_of filter row_email].
      rewrite He, jsstring_eqb_refl. f_equal.
      apply rows_of_absent. now rewrite <- He.
    + cbn [rows_of filter]. rewrite He. now apply IH.
Qed.

Lemma upsert_other (email other source reason : jsstring) (now : Z) (t : Table) :
  other <> email ->
  rows_of other (upsert email source reason now t) = rows_of other t.
Proof.
  intros Hne. induction t as [|r t IH].
  - cbn [upsert rows_of filter row_email].
    assert (H : jsstring_eqb email other = false) by (apply jsstring_eqb_neq; congruence).
    now rewrite H.
  - cbn [upsert]. destruct (jsstring_eqb (row_email r) email) eqn:He.
    + apply jsstring_eqb_eq in He. cbn [rows_of filter row_email].
      assert (H : jsstring_eqb (row_email r) other = false)
        by (apply jsstring_eqb_neq; congruence).
      now rewrite H.
    + cbn [rows_of filter]. fold (rows_of other (upsert email source reason now t)).
      fold (rows_of other t). now rewrite IH.
Qed.

Lemma exec_unique (q : Query) (now : Z) (t t' : Table) :
  unique_keys t -> exec q now (Some t) = Some (Some t') -> unique_keys t'.
Proof.
  intros Hu. destruct q as [|email source]; cbn [exec]; intros [= <-]; [exact Hu|].
  now apply upsert_unique.
Qed.

Lemma saveSuppression_healthy (email source : jsstring) (w : World) :
  outages w = [] ->
  saveSuppression true email source w
  = (Val tt,
     {| suppression :=
          Some (upsert email source (js "user-request") (db_now w) (created (suppression w)));
        db_now := db_now w;
        outages := [];
        statements :=
          statements w ++ [CreateTableIfNotExists; InsertOnConflictUpdate email source];
        console := console w |}).
Proof.
  intros Hout. unfold saveSuppression, pool_query. cbn [negb]. rewrite Hout.
  destruct (suppression w) as [t|]; cbn; rewrite <- app_assoc; reflexivity.
Qed.

Lemma replay_app (email : jsstring) (first later : list (jsstring * Z)) (w : World) :
  replay email (first ++ later) w
  = (fst (replay email first w) ++ fst (replay email later (snd (replay email first w))),
     snd (replay email later (snd (replay email first w)))).
Proof.
  revert w. induction first as [|[source t] first IH]; intros w.
  - cbn [app replay fst snd]. now destruct (replay email later w).
  - cbn [app replay].
    destruct (saveSuppression true email source (at_time t w)) as [r w1].
    rewrite IH. destruct (replay email first w1) as [rs w2]. reflexivity.
Qed.

Lemma replay_healthy (email : jsstring) (calls : list (jsstring * Z)) (w : World) :
  outages w = [] ->
  unique_keys (created (suppression w)) ->
  Forall (fun r => r = Val tt) (fst (replay email calls w))
  /\ outages (snd (replay email calls w)) = []
  /\ unique_keys (created (suppression (snd (replay email calls w))))
  /\ statements (snd (replay email calls w))
     = statements w
         ++ flat_map (fun c => [CreateTableIfNotExists; InsertOnConflictUpdate email (fst c)])
              calls
  /\ (forall other, other <> email ->
        rows_of other (created (suppression (snd (replay email calls w))))
        = rows_of other (created (suppression w))).
Proof.
  revert w. induction calls as [|[source t] calls IH]; intros w Hout Hu.
  - cbn [replay fst snd flat_map]. rewrite app_nil_r. auto.
  - cbn [replay]. rewrite saveSuppression_healthy by exact Hout.
    match goal with |- context [replay email calls ?w1] => set (w' := w1) end.
    destruct (IH w') as (Hrs & Ho & Hk & Hst & Hother).
    + reflexivity.
    + subst w'. cbn [suppression created at_time]. now apply upsert_unique.
    + destruct (replay email calls w') as [rs w2]. cbn [fst snd] in *.
      repeat split; auto.
      * rewrite Hst. subst w'. cbn [statements at_time flat_map fst].
        now rewrite <- app_assoc.
      * intros other Hne. rewrite (Hother other Hne). subst w'.
        cbn [suppression created at_time]. now apply upsert_other.
Qed.

(** ** The answer to a verified token *)

Section DeliverFacts.
Context {node : Runtime}.

Lemma deliver_world (k : Constants) (req : Request) (res : Response)
    (email : jsstring) (w : World) :
  snd (deliver k req res email w) = saved k req email w.
Proof.
  unfold deliver. cbv zeta.
  destruct (is_POST req); [reflexivity|].
  destruct (negb _); [|reflexivity].
  destruct (URL_with_params _ _); reflexivity.
Qed.

Lemma deliver_answer (k k' : Constants) (req : Request) (res : Response)
    (email : jsstring) (w w' : World) :
  VISIBLE_UNSUB_REDIRECT k' = VISIBLE_UNSUB_REDIRECT k ->
  fst (deliver k' req res email w') = fst (deliver k req res email w).
Proof.
  intros Hr. unfold deliver. cbv zeta. rewrite Hr.
  destruct (is_POST req); [reflexivity|].
  destruct (negb _); [|reflexivity].
  destruct (URL_with_params _ _); reflexivity.
Qed.

Lemma saved_healthy (k : Constants) (req : Request) (email : jsstring) (w : World) :
  pool k = true -> outages w = [] ->
  suppression (saved k req email w)
  = Some (upsert email (source_of req) (js "user-request") (db_now w)
            (created (suppression w))).
Proof.
  intros Hp Ho. unfold saved. rewrite Hp, saveSuppression_healthy by exact Ho. reflexivity.
Qed.

End DeliverFacts.

(** ** The order of Numbers *)

Lemma num_gt_finite (a b : Q) : num_gt (Finite a) (Finite b) = true <-> (b < a)%Q.
Proof.
  cbn [num_gt]. rewrite negb_true_iff. split.
  - intros H. apply Qnot_le_lt. intros Hle. apply Qle_bool_iff in Hle. congruence.
  - intros H. destruct (Qle_bool a b) eqn:Hle; [|reflexivity].
    apply Qle_bool_iff in Hle. exfalso. now apply (Qlt_not_le b a).
Qed.

Lemma num_gt_NaN (now : jsnum) : num_gt now NaN = false.
Proof. now destruct now as [|[]|]. Qed.

(** ** The runtime for concrete runs *)

Example sha256_abc :
  map Byte.to_N (SHA256.digest (ascii_bytes "abc"))
  = [186; 120; 22; 191; 143; 1; 207; 234; 65; 65; 64; 222; 93; 174; 34; 35;
     176; 3; 97; 163; 150; 23; 122; 156; 180; 16; 255; 97; 242; 0; 21; 173]%N.
Proof. vm_compute. reflexivity. Qed.

Example hmac_sha256_rfc4231_2 :
  map Byte.to_N
    (SHA256.hmac (ascii_bytes "Jefe") (ascii_bytes "what do ya want for nothing?"))
  = [91; 220; 193; 70; 191; 96; 117; 78; 106; 4; 36; 38; 8; 149; 117; 199;
     90; 0; 63; 8; 157; 39; 57; 131; 157; 236; 88; 185; 100; 236; 56; 67]%N.
Proof. vm_compute. reflexivity. Qed.

Lemma round_length (s : list N) (kw : N * N) :
  length (SHA256.round s kw) = length s.
Proof.
  destruct s as [|a [|b [|c [|d [|e [|f [|g [|h [|i t]]]]]]]]]; reflexivity.
Qed.

Lemma compress_length (h block : list N) :
  length (SHA256.compress h block) = length h.
Proof.
  unfold SHA256.compress. cbv zeta. rewrite length_map, length_combine.
  assert (H : forall l s, length (fold_left SHA256.round l s) = length s).
  { induction l as [|kw l IH]; intros s; [reflexivity|].
    cbn [fold_left]. now rewrite IH, round_length. }
  rewrite H. apply Nat.min_id.
Qed.

Lemma blocks_length (fuel : nat) (ws h : list N) :
  length (SHA256.blocks fuel ws h) = length h.
Proof.
  revert ws h. induction fuel as [|fuel IH]; intros ws h; [reflexivity|].
  destruct ws as [|x ws]; [reflexivity|].
  cbn [SHA256.blocks]. now rewrite IH, compress_length.
Qed.

Lemma digest_length (msg : bytes) : length (SHA256.digest msg) = 32.
Proof.
  unfold SHA256.digest. cbv zeta.
  assert (H : forall l : list N, length (flat_map (SHA256.be_bytes 4) l) = 4 * length l).
  { induction l as [|x l IH]; [reflexivity|].
    cbn [flat_map]. rewrite length_app, IH. unfold SHA256.be_bytes at 1.
    rewrite length_map, length_rev, length_seq. cbn [length]. lia. }
  rewrite H, blocks_length. reflexivity.
Qed.

(** The keyed hash of the runtime has 32 octets, whatever the key and the
    data. *)
Lemma reference_hmac_length (key : jsstring) (data : bytes) :
  length (@hmac_sha256 reference key data) = 32.
Proof. apply digest_length. Qed.

(** ** The samples *)

Lemma jane_signed : @signed reference (js "s3cret") jane_token jane_payload.
Proof. apply (@issued_signed reference), reference_hmac_length. Qed.

Lemma jane_parsed :
  @JSON_parse reference (@utf8_toString reference jane_payload)
  = Some (JObj [(js "email", JStr (js "Jane.Doe@Example.com "));
                (js "exp", JNum (Finite 4102444800))]).
Proof. vm_compute. reflexivity. Qed.

Lemma never_signed : @signed reference (js "s3cret") never_token never_payload.
Proof. apply (@issued_signed reference), reference_hmac_length. Qed.

Lemma never_parsed :
  @JSON_parse reference (@utf8_toString reference never_payload)
  = Some (JObj [(js "email", JStr (js "jane@example.com"));
                (js "exp", JStr (js "never"))]).
Proof. vm_compute. reflexivity. Qed.

Lemma epoch_signed : @signed reference (js "s3cret") epoch_token epoch_payload.
Proof. apply (@issued_signed reference), reference_hmac_length. Qed.

Lemma epoch_parsed :
  @JSON_parse reference (@utf8_toString reference epoch_payload)
  = Some (JObj [(js "email", JStr (js "a@b.c")); (js "exp", JNum (Finite 0))]).
Proof. vm_compute. reflexivity. Qed.

Lemma null_signed : @signed reference (js "s3cret") null_token null_payload.
Proof. apply (@issued_signed reference), reference_hmac_length. Qed.

Lemma null_parsed :
  @JSON_parse reference (@utf8_toString reference null_payload) = Some JNull.
Proof. vm_compute. reflexivity. Qed.

Lemma jane_accepted :
  @verify reference (js "s3cret") a_day_in_2025 jane_token
  = Val (Accepted (js "jane.doe@example.com")).
Proof.
  rewrite (@verify_signed reference _ _ _ _ jane_signed).
  unfold read_claim. rewrite jane_parsed. vm_compute. reflexivity.
Qed.

Lemma one_click_carries : carries one_click jane_token.
Proof.
  split; [reflexivity|]. split; [reflexivity|]. vm_compute. discriminate.
Qed.

(** ** Runs of the handler *)

Example run_other_method :
  @handler reference deployment a_day_in_2025
    {| method := js "PUT"; query_token := One jane_token |} fresh_response backend_down
  = (Val tt,
     {| headers := [(js "allow", js "GET, POST");
                    (js "cache-control", js "no-store, max-age=0")];
        statusCode := 405;
        sent := Some (Text (js "Method Not Allowed")) |},
     backend_down).
Proof. vm_compute. reflexivity. Qed.

Example run_missing_token :
  @handler reference deployment a_day_in_2025
    {| method := js "GET"; query_token := Many [] |} fresh_response backend_down
  = (Val tt,
     {| headers := [(js "cache-control", js "no-store, max-age=0")];
        statusCode := 400;
        sent := Some (Text (js "missing token")) |},
     backend_down).
Proof. vm_compute. reflexivity. Qed.

Example run_wrong_separator :
  @verify reference (js "s3cret") a_day_in_2025
    (Issuer.base64url false (jane_payload ++ x2d :: jane_signature))
  = Val (Rejected MalformedToken).
Proof. vm_compute. reflexivity. Qed.

Example run_web_click :
  @handler reference deployment a_day_in_2025
    {| method := js "GET"; query_token := Many [jane_token] |} fresh_response
    {| suppression := None; db_now := 1761955200; outages := []; statements := [];
       console := [] |}
  = (Val tt,
     {| headers := [(js "content-type", js "text/html; charset=utf-8");
                    (js "cache-control", js "no-store, max-age=0")];
        statusCode := 200;
        sent := Some (ConfirmationPage (js "ja***@example.com")) |},
     {| suppression :=
          Some [{| row_email := js "jane.doe@example.com"; row_source := js "web";
                   row_reason := js "user-request"; row_ts := 1761955200 |}];
        db_now := 1761955200;
        outages := [];
        statements :=
          [CreateTableIfNotExists;
           InsertOnConflictUpdate (js "jane.doe@example.com") (js "web")];
        console := [] |}).
Proof. vm_compute. reflexivity. Qed.

Example run_redirect :
  fst (@handler reference
         {| UNSUB_SECRET := js "s3cret"; pool := false;
            VISIBLE_UNSUB_REDIRECT := js "https://example.com/bye" |}
         a_day_in_2025
         {| method := js "GET"; query_token := One jane_token |} fresh_response
         backend_down)
  = (Val tt,
     {| headers :=
          [(js "location",
            js "https://example.com/bye?status=success&email=ja***%40example.com");
           (js "cache-control", js "no-store, max-age=0")];
        statusCode := 302;
        sent := Some NoBody |}).
Proof. vm_compute. reflexivity. Qed.

(* ================================================================== *)
(** * The claims of the specification *)

(** C1 (round trip with normalization).  Let the payload be JSON text of an
    object with a non-empty string [email] and a Number [exp], signed with
    any secret by a keyed hash of 32 octets, and encoded URL-safe with or
    without padding.  At every reading of the clock that is after the epoch
    and not after [exp], the verifier with the same secret accepts the
    token and returns [email] trimmed and in lower case, and the handler
    goes on to the write and the answer.  The address
    [Jane.Doe@Example.com ] is normalized to [jane.doe@example.com]. *)
Theorem roundtrip_normalized (node : Runtime) (secret : jsstring) (padded : bool)
    (raw : bytes) (members : list (jsstring * JSON)) (e : jsstring) (x : jsnum)
    (n : Q) :
  length (hmac_sha256 secret raw) = 32 ->
  JSON_parse (utf8_toString raw) = Some (JObj members) ->
  own_property members (js "email") = Some (JStr e) -> e <> [] ->
  own_property members (js "exp") = Some (JNum x) -> x <> NaN ->
  (0 < n)%Q -> num_gt (Finite n) x = false ->
  verify secret (Finite n) (Issuer.token padded raw (hmac_sha256 secret raw))
  = Val (Accepted (toLowerCase (trim e)))
  /\ (forall k req res w,
        UNSUB_SECRET k = secret ->
        carries req (Issuer.token padded raw (hmac_sha256 secret raw)) ->
        handler k (Finite n) req res w
        = deliver k req (no_store res) (toLowerCase (trim e)) w)
  /\ toLowerCase (trim (js "Jane.Doe@Example.com ")) = js "jane.doe@example.com".
Proof.
  intros Hlen Hparse Hemail He Hexp Hx Hn Hnow.
  assert (Tx : truthy (Some (JNum x)) = true).
  { destruct x as [|[]|q]; [contradiction|discriminate|reflexivity|].
    cbn [truthy]. apply negb_true_iff. destruct (Qeq_bool q 0) eqn:Hq; [|reflexivity].
    apply Qeq_bool_iff in Hq. exfalso.
    assert (Hgt : num_gt (Finite n) (Finite q) = true)
      by (apply num_gt_finite; now rewrite Hq).
    congruence. }
  assert (Hv : verify secret (Finite n) (Issuer.token padded raw (hmac_sha256 secret raw))
               = Val (Accepted (toLowerCase (trim e)))).
  { rewrite (verify_signed secret (Finite n) _ raw (issued_signed secret padded raw Hlen)).
    assert (Te : truthy (Some (JStr e)) = true) by (destruct e; [contradiction|reflexivity]).
    rewrite (read_claim_checked (Finite n) raw (JObj members) (Some (JStr e)) (Some (JNum x))
               Hparse (f_equal Val Hemail) Te (f_equal Val Hexp) Tx).
    cbn [Number_ ToNumber rbind]. rewrite Hnow. reflexivity. }
  split; [exact Hv|]. split.
  - intros k req res w <- Hc. now apply handler_accepted with (1 := Hc).
  - vm_compute. reflexivity.
Qed.

(** C1 at the scenario of the specification, on 1 November 2025. *)
Lemma roundtrip_normalized_witness :
  @verify reference (js "s3cret") (Finite 1761955200) jane_token
  = Val (Accepted (js "jane.doe@example.com")).
Proof.
  refine (proj1 (roundtrip_normalized reference (js "s3cret") false jane_payload
                   _ (js "Jane.Doe@Example.com ") (Finite 4102444800) 1761955200
                   _ jane_parsed eq_refl _ eq_refl _ eq_refl eq_refl)).
  - apply reference_hmac_length.
  - discriminate.
  - discriminate.
Defined.

(** C2 (signature gate).  When the decoded octets are [raw . sig] with 32
    octets of [sig], and [sig] is anything but the keyed hash of [raw], the
    answer is "signature" with status 400 and nothing is written, whatever
    the payload is and whatever the JSON reader would make of it; so it is
    for a signature with any single bit inverted.  The comparison answers
    [false] on operands of different length, otherwise it is the fold over
    all octet pairs, and it holds exactly of equal operands. *)
Theorem signature_gate (node : Runtime) (secret : jsstring) (now : jsnum)
    (token : jsstring) (raw sig : bytes) :
  base64urlToBuffer token = raw ++ x2e :: sig ->
  length sig = 32 ->
  sig <> hmac_sha256 secret raw ->
  verify secret now token = Val (Rejected SignatureInvalid)
  /\ (forall k req res w,
        UNSUB_SECRET k = secret -> carries req token ->
        handler k now req res w = (Val tt, refusal SignatureInvalid res, w))
  /\ (forall i bit token',
        length (hmac_sha256 secret raw) = 32 -> i < 32 -> (bit < 8)%N ->
        base64urlToBuffer token' = raw ++ x2e :: flip_bit i bit (hmac_sha256 secret raw) ->
        verify secret now token' = Val (Rejected SignatureInvalid))
  /\ (forall a b : bytes, length a <> length b -> safeEqual a b = Val false)
  /\ (forall a b : bytes, length a = length b -> safeEqual a b = timingSafeEqual a b)
  /\ (forall a b : bytes, safeEqual a b = Val true <-> a = b).
Proof.
  intros Hbuf Hsig Hne.
  assert (Hgate : forall t s, base64urlToBuffer t = raw ++ x2e :: s -> length s = 32 ->
                  s <> hmac_sha256 secret raw ->
                  verify secret now t = Val (Rejected SignatureInvalid)).
  { intros t s Ht Hs Hdiff. rewrite (verify_split secret now t raw s Ht Hs).
    assert (Hb : bytes_eqb (hmac_sha256 secret raw) s = false)
      by (apply bytes_eqb_false; congruence).
    now rewrite Hb. }
  split; [now apply Hgate with (s := sig)|].
  split.
  { intros k req res w <- Hc. apply handler_rejected with (token := token); [exact Hc|].
    now apply Hgate with (s := sig). }
  split.
  { intros i bit token' Hlen Hi Hbit Ht.
    apply Hgate with (s := flip_bit i bit (hmac_sha256 secret raw)); [exact Ht| |].
    - now rewrite flip_bit_length.
    - apply flip_bit_differs; [lia | exact Hbit]. }
  split.
  { intros a b Hlen. unfold safeEqual. cbv zeta.
    apply Nat.eqb_neq in Hlen. now rewrite Hlen. }
  split.
  { intros a b Hlen. unfold safeEqual. cbv zeta. now rewrite Hlen, Nat.eqb_refl. }
  intros a b. rewrite safeEqual_spec. split.
  - intros [= H]. now apply bytes_eqb_true.
  - intros ->. f_equal. now apply bytes_eqb_true.
Qed.

(** C2 at Jane's token with one signature bit inverted. *)
Lemma signature_gate_witness :
  base64urlToBuffer forged_token = jane_payload ++ x2e :: flip_bit 0 0 jane_signature
  /\ @verify reference (js "s3cret") a_day_in_2025 forged_token
     = Val (Rejected SignatureInvalid).
Proof.
  assert (Hbuf : base64urlToBuffer forged_token
                 = jane_payload ++ x2e :: flip_bit 0 0 jane_signature)
    by apply base64url_roundtrip.
  assert (Hlen : length (flip_bit 0 0 jane_signature) = 32) by (vm_compute; reflexivity).
  assert (Hne : flip_bit 0 0 jane_signature <> @hmac_sha256 reference (js "s3cret") jane_payload)
    by (vm_compute; discriminate).
  split; [exact Hbuf|].
  exact (proj1 (signature_gate reference (js "s3cret") a_day_in_2025 forged_token
                  jane_payload (flip_bit 0 0 jane_signature) Hbuf Hlen Hne)).
Defined.

(** C3 (expiry boundary).  For a token that passes the split and the
    signature check, whose payload parses and whose [email] and [exp] pass
    the required-field check, the answer is "expired" exactly when the
    clock, in seconds, is greater than [Number(exp)]; otherwise the token is
    accepted.  With the clock equal to the expiry it is accepted, one second
    later it is turned down as expired, which the handler answers with
    status 400 and without writing. *)
Theorem expiry_boundary (node : Runtime) (secret : jsstring) (now : jsnum)
    (token : jsstring) (raw : bytes) (payload : JSON) (email exp : jsval)
    (limit : jsnum) (s : jsstring) :
  signed secret token raw ->
  JSON_parse (utf8_toString raw) = Some payload ->
  get payload (js "email") = Val email -> truthy email = true ->
  get payload (js "exp") = Val exp -> truthy exp = true ->
  Number_ exp = Val limit ->
  String_ email = Val s ->
  (verify secret now token = Val (Rejected TokenExpired) <-> num_gt now limit = true)
  /\ (num_gt now limit = false ->
      verify secret now token = Val (Accepted (toLowerCase (trim s))))
  /\ (forall a b, now = Finite a -> limit = Finite b ->
        (num_gt now limit = true <-> (b < a)%Q)
        /\ ((a == b)%Q -> verify secret now token = Val (Accepted (toLowerCase (trim s))))
        /\ ((a == b + 1)%Q -> verify secret now token = Val (Rejected TokenExpired)))
  /\ (forall k req res w,
        UNSUB_SECRET k = secret -> carries req token -> num_gt now limit = true ->
        handler k now req res w = (Val tt, refusal TokenExpired res, w)).
Proof.
  intros Hsigned Hparse Hemail Temail Hexp Texp Hlimit Hs.
  assert (Hv : verify secret now token
               = if num_gt now limit then Val (Rejected TokenExpired)
                 else Val (Accepted (toLowerCase (trim s)))).
  { rewrite (verify_signed secret now token raw Hsigned).
    rewrite (read_claim_checked now raw payload email exp Hparse Hemail Temail Hexp Texp).
    rewrite Hlimit. cbn [rbind]. destruct (num_gt now limit); [reflexivity|].
    now rewrite Hs. }
  split.
  { rewrite Hv. destruct (num_gt now limit); split; congruence. }
  split.
  { intros Hle. now rewrite Hv, Hle. }
  split.
  { intros a b -> ->. split; [apply num_gt_finite|]. split.
    - intros Hab. rewrite Hv.
      destruct (num_gt (Finite a) (Finite b)) eqn:Hgt; [|reflexivity].
      apply num_gt_finite in Hgt. rewrite Hab in Hgt. now apply Qlt_irrefl in Hgt.
    - intros Hab. rewrite Hv.
      assert (Hgt : num_gt (Finite a) (Finite b) = true).
      { apply num_gt_finite. rewrite Hab. rewrite <- (Qplus_0_r b) at 1.
        apply Qplus_lt_r. reflexivity. }
      now rewrite Hgt. }
  intros k req res w <- Hc Hgt. apply handler_rejected with (token := token); [exact Hc|].
  now rewrite Hv, Hgt.
Qed.

(** C3 at Jane's token with the clock on the second of its expiry. *)
Lemma expiry_boundary_witness :
  @verify reference (js "s3cret") (Finite 4102444800) jane_token
  = Val (Accepted (js "jane.doe@example.com"))
  /\ @verify reference (js "s3cret") (Finite 4102444801) jane_token
     = Val (Rejected TokenExpired).
Proof.
  split.
  - destruct (expiry_boundary reference (js "s3cret") (Finite 4102444800) jane_token
                jane_payload _ _ _ (Finite 4102444800) (js "Jane.Doe@Example.com ")
                jane_signed jane_parsed eq_refl eq_refl eq_refl eq_refl eq_refl eq_refl)
      as (_ & _ & H & _).
    destruct (H _ _ eq_refl eq_refl) as (_ & Hsame & _).
    exact (Hsame (Qeq_refl _)).
  - destruct (expiry_boundary reference (js "s3cret") (Finite 4102444801) jane_token
                jane_payload _ _ _ (Finite 4102444800) (js "Jane.Doe@Example.com ")
                jane_signed jane_parsed eq_refl eq_refl eq_refl eq_refl eq_refl eq_refl)
      as (_ & _ & H & _).
    destruct (H _ _ eq_refl eq_refl) as (_ & _ & Hlater).
    exact (Hlater eq_refl).
Defined.

(** C4 (an expiry that is no number).  For a token that passes the split and
    the signature check, whose payload parses, whose [email] and [exp] pass
    the required-field check and whose [Number(exp)] is NaN, the comparison
    with the clock is false at every reading of the clock: the token is
    accepted, the handler goes on to the write and the answer, and with a
    backend that answers the table then holds the one row of the address.
    The string [never] is such an expiry in every runtime that reads it as
    NaN. *)
Theorem non_numeric_expiry_accepted (node : Runtime) (secret token : jsstring)
    (raw : bytes) (payload : JSON) (email exp : jsval) (s : jsstring) :
  signed secret token raw ->
  JSON_parse (utf8_toString raw) = Some payload ->
  get payload (js "email") = Val email -> truthy email = true ->
  get payload (js "exp") = Val exp -> truthy exp = true ->
  Number_ exp = Val NaN ->
  String_ email = Val s ->
  forall now : jsnum,
    num_gt now NaN = false
    /\ verify secret now token = Val (Accepted (toLowerCase (trim s)))
    /\ (forall k req res w,
          UNSUB_SECRET k = secret -> carries req token ->
          handler k now req res w = deliver k req (no_store res) (toLowerCase (trim s)) w
          /\ (pool k = true -> outages w = [] -> unique_keys (created (suppression w)) ->
              exists tbl,
                suppression (snd (handler k now req res w)) = Some tbl
                /\ rows_of (toLowerCase (trim s)) tbl
                   = [{| row_email := toLowerCase (trim s);
                         row_source := source_of req;
                         row_reason := js "user-request";
                         row_ts := db_now w |}]))
    /\ (StringToNumber (js "never") = NaN ->
        truthy (Some (JStr (js "never"))) = true
        /\ Number_ (Some (JStr (js "never"))) = Val NaN).
Proof.
  intros Hsigned Hparse Hemail Temail Hexp Texp Hlimit Hs now.
  assert (Hv : verify secret now token = Val (Accepted (toLowerCase (trim s)))).
  { rewrite (verify_signed secret now token raw Hsigned).
    rewrite (read_claim_checked now raw payload email exp Hparse Hemail Temail Hexp Texp).
    rewrite Hlimit. cbn [rbind]. rewrite num_gt_NaN. now rewrite Hs. }
  split; [apply num_gt_NaN|]. split; [exact Hv|]. split.
  - intros k req res w <- Hc.
    assert (Hh : handler k now req res w
                 = deliver k req (no_store res) (toLowerCase (trim s)) w)
      by now apply handler_accepted with (token := token).
    split; [exact Hh|].
    intros Hp Ho Hu. rewrite Hh, deliver_world, saved_healthy by assumption.
    eexists. split; [reflexivity|]. now apply upsert_rows.
  - intros Hnever. split; [reflexivity|]. cbn [Number_ ToNumber]. now rewrite Hnever.
Qed.

(** C4 at a token whose expiry is the string [never], a century after its
    issue. *)
Lemma non_numeric_expiry_accepted_witness :
  @verify reference (js "s3cret") (Finite 4102444800) never_token
  = Val (Accepted (js "jane@example.com")).
Proof.
  exact (proj1 (proj2
    (non_numeric_expiry_accepted reference (js "s3cret") never_token never_payload
       _ _ _ (js "jane@example.com")
       never_signed never_parsed eq_refl eq_refl eq_refl eq_refl eq_refl eq_refl
       (Finite 4102444800)))).
Defined.

(** C5 (structural validity).  A token whose decoded octets are fewer than
    33, or whose octet just before the last 32 is not [0x2E], is turned
    down as "bad token" with status 400 and nothing is written.  This holds
    whatever the keyed hash computes, hence also when the trailing octets
    would be a valid signature over some other split. *)
Theorem malformed_token_rejected (node : Runtime) (secret : jsstring)
    (now : jsnum) (token : jsstring) :
  let buf := base64urlToBuffer token in
  length buf < 33 \/ nth (length buf - 33) buf x00 <> x2e ->
  verify secret now token = Val (Rejected MalformedToken)
  /\ (forall k req res w,
        UNSUB_SECRET k = secret -> carries req token ->
        handler k now req res w = (Val tt, refusal MalformedToken res, w)).
Proof.
  intros buf Hbad.
  assert (Hsplit : split_token token = None).
  { destruct (split_token token) as [[raw sig]|] eqn:Hs; [|reflexivity].
    apply split_token_Some in Hs as [Hbuf Hsig]. exfalso.
    subst buf. rewrite Hbuf in Hbad. rewrite length_app in Hbad. cbn [length] in Hbad.
    destruct Hbad as [Hlen | Hsep]; [lia|]. apply Hsep.
    rewrite app_nth2 by lia.
    now replace (length raw + S (length sig) - 33 - length raw) with 0 by lia. }
  assert (Hv : verify secret now token = Val (Rejected MalformedToken))
    by (unfold verify; now rewrite Hsplit).
  split; [exact Hv|].
  intros k req res w <- Hc. now apply handler_rejected with (token := token).
Qed.

(** C5 at the token [QUJD], which decodes to three octets. *)
Lemma malformed_token_rejected_witness :
  length (base64urlToBuffer (js "QUJD")) < 33
  /\ @verify reference (js "s3cret") a_day_in_2025 (js "QUJD")
     = Val (Rejected MalformedToken).
Proof.
  assert (H : length (base64urlToBuffer (js "QUJD")) < 33) by (vm_compute; lia).
  split; [exact H|].
  exact (proj1 (malformed_token_rejected reference (js "s3cret") a_day_in_2025
                  (js "QUJD") (or_introl H))).
Defined.

(** C6 as stated fails: in the payload [{email: a@b.c, exp: 0}] both fields
    are present and neither is empty or [null], yet the token, whose
    signature holds, is turned down as "payload" and does not reach the
    expiry check. *)
Lemma required_fields_counterexample :
  @signed reference (js "s3cret") epoch_token epoch_payload
  /\ @JSON_parse reference (@utf8_toString reference epoch_payload)
     = Some (JObj [(js "email", JStr (js "a@b.c")); (js "exp", JNum (Finite 0))])
  /\ present_nonempty (Some (JStr (js "a@b.c"))) = true
  /\ present_nonempty (Some (JNum (Finite 0))) = true
  /\ @verify reference (js "s3cret") a_day_in_2025 epoch_token
     = Val (Rejected PayloadInvalid).
Proof.
  split; [exact epoch_signed|]. split; [exact epoch_parsed|].
  split; [reflexivity|]. split; [reflexivity|].
  rewrite (@verify_signed reference _ _ _ _ epoch_signed).
  unfold read_claim. rewrite epoch_parsed. reflexivity.
Qed.

(** The payload [null] parses, and reading [email] of it throws: the
    handler ends in a TypeError instead of an answer. *)
Lemma null_payload_throws :
  @verify reference (js "s3cret") a_day_in_2025 null_token = Throws TypeError.
Proof.
  rewrite (@verify_signed reference _ _ _ _ null_signed).
  unfold read_claim. rewrite null_parsed. reflexivity.
Qed.

(** C6, amended (required fields).  For a token that passes the split and
    the signature check and whose payload parses to a value other than
    [null], the answer is "payload" exactly when [email] or [exp] is falsy:
    absent, [null], [false], the Number 0 or NaN, or the empty string.  So a
    numeric [exp] equal to 0 is turned down as "payload".  When both are
    truthy the verifier goes on to the expiry check. *)
Theorem required_fields (node : Runtime) (secret : jsstring) (now : jsnum)
    (token : jsstring) (raw : bytes) (payload : JSON) :
  signed secret token raw ->
  JSON_parse (utf8_toString raw) = Some payload ->
  payload <> JNull ->
  exists email exp : jsval,
    get payload (js "email") = Val email
    /\ get payload (js "exp") = Val exp
    /\ (verify secret now token = Val (Rejected PayloadInvalid)
        <-> truthy email = false \/ truthy exp = false)
    /\ (truthy email = true -> truthy exp = true ->
        verify secret now token
        = (let! limit := Number_ exp in
           if num_gt now limit then Val (Rejected TokenExpired)
           else let! s := String_ email in Val (Accepted (toLowerCase (trim s)))))
    /\ (forall v : jsval,
          truthy v = false
          <-> v = None \/ v = Some JNull \/ v = Some (JBool false)
              \/ v = Some (JStr []) \/ v = Some (JNum NaN)
              \/ exists q, v = Some (JNum (Finite q)) /\ (q == 0)%Q).
Proof.
  intros Hsigned Hparse Hnull.
  assert (Hget : forall name, exists v, get payload name = Val v)
    by (intros name; destruct payload; try contradiction; eexists; reflexivity).
  destruct (Hget (js "email")) as [email Hemail].
  destruct (Hget (js "exp")) as [exp Hexp].
  exists email, exp. split; [exact Hemail|]. split; [exact Hexp|].
  assert (Hv : verify secret now token
               = if negb (truthy email) then Val (Rejected PayloadInvalid)
                 else if negb (truthy exp) then Val (Rejected PayloadInvalid)
                 else (let! limit := Number_ exp in
                       if num_gt now limit then Val (Rejected TokenExpired)
                       else let! s := String_ email in
                            Val (Accepted (toLowerCase (trim s))))).
  { rewrite (verify_signed secret now token raw Hsigned). unfold read_claim.
    rewrite Hparse, Hemail. cbn [rbind]. destruct (truthy email); cbn [negb]; [|reflexivity].
    rewrite Hexp. reflexivity. }
  split.
  { rewrite Hv. destruct (truthy email); cbn [negb]; [|tauto].
    destruct (truthy exp); cbn [negb]; [|tauto].
    split; [|intros [H|H]; discriminate].
    destruct (Number_ exp) as [limit|e]; cbn [rbind]; [|discriminate].
    destruct (num_gt now limit); [intros [= H]; vm_compute in H; discriminate|].
    destruct (String_ email); cbn [rbind]; discriminate. }
  split.
  { intros Te Tx. now rewrite Hv, Te, Tx. }
  intros v. split.
  - destruct v as [[|[]|[|neg|q]|[|c s]|items|members]|]; cbn [truthy]; intros H;
      try discriminate; auto 6.
    + do 5 right. exists q. split; [reflexivity|].
      apply negb_false_iff in H. now apply Qeq_bool_iff in H.
  - intros [->|[->|[->|[->|[->|(q & -> & Hq)]]]]]; try reflexivity.
    cbn [truthy]. apply negb_false_iff. now apply Qeq_bool_iff.
Qed.

(** C6 at Jane's token: both fields are truthy and the token is not turned
    down as "payload". *)
Lemma required_fields_witness :
  @verify reference (js "s3cret") a_day_in_2025 jane_token
  <> Val (Rejected PayloadInvalid).
Proof.
  destruct (required_fields reference (js "s3cret") a_day_in_2025 jane_token jane_payload
              _ jane_signed jane_parsed ltac:(discriminate))
    as (email & exp & Hemail & Hexp & Hiff & _).
  intros Hv. apply Hiff in Hv. cbn in Hemail, Hexp.
  injection Hemail as <-. injection Hexp as <-.
  destruct Hv as [Hv|Hv]; vm_compute in Hv; discriminate.
Defined.

(** C7 (store idempotence).  After any number of calls of [saveSuppression]
    for one address, against a backend that answers and a table that
    honours its primary key, every call has returned without error, the
    table holds exactly one row for the address, and that row carries the
    source and the time of the last call and the reason [user-request].
    Each call sends two statements, the idempotent [CREATE TABLE] and one
    [INSERT ... ON CONFLICT ... DO UPDATE]; no statement reads the table
    first.  The rows of other addresses stay as they were.  Either
    statement keeps the keys unique, so this also holds of the statements
    of several calls in any order. *)
Theorem suppression_idempotent (email : jsstring) (earlier : list (jsstring * Z))
    (source : jsstring) (t : Z) (w : World) :
  outages w = [] ->
  unique_keys (created (suppression w)) ->
  Forall (fun r => r = Val tt) (fst (replay email (earlier ++ [(source, t)]) w))
  /\ (exists tbl,
        suppression (snd (replay email (earlier ++ [(source, t)]) w)) = Some tbl
        /\ unique_keys tbl
        /\ rows_of email tbl
           = [{| row_email := email; row_source := source;
                 row_reason := js "user-request"; row_ts := t |}])
  /\ statements (snd (replay email (earlier ++ [(source, t)]) w))
     = statements w
         ++ flat_map (fun c => [CreateTableIfNotExists; InsertOnConflictUpdate email (fst c)])
              (earlier ++ [(source, t)])
  /\ (forall other, other <> email ->
        rows_of other (created (suppression (snd (replay email (earlier ++ [(source, t)]) w))))
        = rows_of other (created (suppression w)))
  /\ (forall q now tbl tbl',
        unique_keys tbl -> exec q now (Some tbl) = Some (Some tbl') -> unique_keys tbl').
Proof.
  intros Hout Hu.
  destruct (replay_healthy email (earlier ++ [(source, t)]) w Hout Hu)
    as (Hrs & _ & _ & Hst & Hother).
  destruct (replay_healthy email earlier w Hout Hu) as (_ & Hout1 & Hu1 & _).
  split; [exact Hrs|].
  split; [|split; [exact Hst | split; [exact Hother | exact exec_unique]]].
  rewrite replay_app. cbn [snd]. set (w1 := snd (replay email earlier w)) in *.
  cbn [replay]. rewrite saveSuppression_healthy by exact Hout1. cbn [snd suppression at_time db_now].
  eexists. split; [reflexivity|]. split.
  - now apply upsert_unique.
  - now apply upsert_rows.
Qed.

(** C7 at two clicks on one address, a one-click POST at time 10 and a
    web GET at time 20, on a database with no table yet. *)
Lemma suppression_idempotent_witness :
  rows_of (js "jane.doe@example.com")
    (created (suppression (snd (replay (js "jane.doe@example.com")
       [(js "one-click", 10%Z); (js "web", 20%Z)]
       {| suppression := None; db_now := 0; outages := []; statements := [];
          console := [] |}))))
  = [{| row_email := js "jane.doe@example.com"; row_source := js "web";
        row_reason := js "user-request"; row_ts := 20 |}].
Proof.
  destruct (suppression_idempotent (js "jane.doe@example.com")
              [(js "one-click", 10%Z)] (js "web") 20%Z
              {| suppression := None; db_now := 0; outages := []; statements := [];
                 console := [] |} eq_refl (NoDup_nil _))
    as (_ & (tbl & Htbl & _ & Hrows) & _).
  cbn [app] in Htbl. rewrite Htbl. exact Hrows.
Defined.

(** C8 (persistence failures are absorbed).  For a request whose token the
    verifier accepts, the answer is the success outcome whatever the store
    does: status 204 without body for a POST; for a GET the confirmation
    page with the masked address, or, when a redirect address is configured
    and well formed, status 302 to it.  The answer is the same for every
    state of the backend and whether or not a pool exists.  Without a pool
    nothing outside changes; with a pool whose write throws, the error goes
    to [console.error] and nowhere else. *)
Theorem persistence_absorbed (node : Runtime) (k : Constants) (now : jsnum)
    (req : Request) (res : Response) (w : World) (token email : jsstring) :
  carries req token ->
  verify (UNSUB_SECRET k) now token = Val (Accepted email) ->
  (is_POST req = true ->
   fst (handler k now req res w) = (Val tt, send NoBody (status 204 (no_store res))))
  /\ (is_POST req = false -> VISIBLE_UNSUB_REDIRECT k = [] ->
      fst (handler k now req res w)
      = (Val tt,
         send (ConfirmationPage (esc (maskEmail email)))
           (status 200
              (setHeader (js "Content-Type") (js "text/html; charset=utf-8")
                 (no_store res)))))
  /\ (forall url,
        is_POST req = false -> VISIBLE_UNSUB_REDIRECT k <> [] ->
        URL_with_params (VISIBLE_UNSUB_REDIRECT k)
          [(js "status", js "success"); (js "email", maskEmail email)] = Some url ->
        fst (handler k now req res w)
        = (Val tt, send NoBody (status 302 (setHeader (js "Location") url (no_store res)))))
  /\ (forall k' w',
        UNSUB_SECRET k' = UNSUB_SECRET k ->
        VISIBLE_UNSUB_REDIRECT k' = VISIBLE_UNSUB_REDIRECT k ->
        fst (handler k' now req res w') = fst (handler k now req res w))
  /\ snd (handler k now req res w) = saved k req email w
  /\ (pool k = false -> saved k req email w = w)
  /\ (forall e w1,
        saveSuppression (pool k) email (source_of req) w = (Throws e, w1) ->
        saved k req email w = console_error (js "suppression save failed:") e w1)
  /\ (forall w1,
        saveSuppression (pool k) email (source_of req) w = (Val tt, w1) ->
        saved k req email w = w1).
Proof.
  intros Hc Hv.
  assert (Hh : forall k' w', UNSUB_SECRET k' = UNSUB_SECRET k ->
               handler k' now req res w' = deliver k' req (no_store res) email w').
  { intros k' w' Hs. apply handler_accepted with (token := token); [exact Hc|].
    now rewrite Hs. }
  rewrite (Hh k w eq_refl).
  split.
  { intros Hp. unfold deliver. cbv zeta. now rewrite Hp. }
  split.
  { intros Hp Hr. unfold deliver. cbv zeta. now rewrite Hp, Hr. }
  split.
  { intros url Hp Hr Hurl. unfold deliver. cbv zeta. rewrite Hp, Hurl.
    destruct (VISIBLE_UNSUB_REDIRECT k); [contradiction|reflexivity]. }
  split.
  { intros k' w' Hs Hr. rewrite (Hh k' w' Hs). now apply deliver_answer. }
  split; [apply deliver_world|].
  split.
  { intros Hp. unfold saved, saveSuppression. now rewrite Hp. }
  split.
  - intros e w1 Hsave. unfold saved. now rewrite Hsave.
  - intros w1 Hsave. unfold saved. now rewrite Hsave.
Qed.

(** C8 at a one-click POST with Jane's token while the backend rejects the
    statement: the answer is 204 and the error is on the console. *)
Lemma persistence_absorbed_witness :
  fst (@handler reference deployment a_day_in_2025 one_click fresh_response backend_down)
  = (Val tt, send NoBody (status 204 (no_store fresh_response)))
  /\ console (snd (@handler reference deployment a_day_in_2025 one_click fresh_response
                     backend_down))
     = [(js "suppression save failed:", QueryFailed)].
Proof.
  destruct (persistence_absorbed reference deployment a_day_in_2025 one_click
              fresh_response backend_down jane_token (js "jane.doe@example.com")
              one_click_carries jane_accepted)
    as (Hpost & _ & _ & _ & Hworld & _ & Hthrow & _).
  split; [exact (Hpost eq_refl)|].
  rewrite Hworld. rewrite (Hthrow QueryFailed _ eq_refl). reflexivity.
Defined.

(** C9 as stated fails: for the input [a@], of the form [local@domain] with
    an empty domain, the function returns the input and not [a***@]; for
    [a@b@c], whose domain [b@c] contains the separator, it returns [a***@b]
    and not [a***@b@c]. *)
Lemma maskEmail_counterexample :
  (maskEmail (js "a" ++ 64%N :: js "") = js "a@"
   /\ maskEmail (js "a" ++ 64%N :: js "") <> firstn 1 (js "a") ++ js "***@" ++ js "")
  /\ (maskEmail (js "a" ++ 64%N :: js "b@c") = js "a***@b"
      /\ maskEmail (js "a" ++ 64%N :: js "b@c")
         <> firstn 1 (js "a") ++ js "***@" ++ js "b@c").
Proof.
  repeat split; try (vm_compute; reflexivity); vm_compute; discriminate.
Qed.

(** C9, amended (email masking).  For [local@domain] with no separator in
    [local] and a non-empty [domain] without separator, the result is the
    first character of [local] (none if [local] is empty) when [local] has
    at most two, else its first two, followed by [***@domain].  An input
    without separator is returned as it is, and so is one with nothing
    between its first separator and the next or the end.  Of an input with
    further separators only the text up to the second counts as domain.
    Jane's normalized address gives [ja***@example.com]. *)
Theorem maskEmail_spec :
  (forall local domain,
     ~ In 64%N local -> ~ In 64%N domain -> domain <> [] ->
     maskEmail (local ++ 64%N :: domain)
     = (if Nat.leb (length local) 2 then firstn 1 local else firstn 2 local)
         ++ js "***@" ++ domain)
  /\ (forall s, ~ In 64%N s -> maskEmail s = s)
  /\ (forall local rest,
        ~ In 64%N local ->
        maskEmail (local ++ 64%N :: 64%N :: rest) = local ++ 64%N :: 64%N :: rest)
  /\ (forall local, ~ In 64%N local -> maskEmail (local ++ [64%N]) = local ++ [64%N])
  /\ (forall local domain rest,
        ~ In 64%N local -> ~ In 64%N domain -> domain <> [] ->
        maskEmail (local ++ 64%N :: domain ++ 64%N :: rest)
        = (if Nat.leb (length local) 2 then firstn 1 local else firstn 2 local)
            ++ js "***@" ++ domain)
  /\ maskEmail (js "jane.doe@example.com") = js "ja***@example.com".
Proof.
  split.
  { intros local domain Hl Hd Hne. apply maskEmail_domain with (more := []); [|exact Hne].
    now rewrite (split_at_first local domain Hl), (split_at_plain domain Hd). }
  split.
  { intros s Hs. unfold maskEmail. cbv zeta. now rewrite (split_at_plain s Hs). }
  split.
  { intros local rest Hl. unfold maskEmail. cbv zeta.
    rewrite (split_at_first local (64%N :: rest) Hl). reflexivity. }
  split.
  { intros local Hl. unfold maskEmail. cbv zeta.
    rewrite (split_at_first local [] Hl). reflexivity. }
  split.
  { intros local domain rest Hl Hd Hne.
    apply maskEmail_domain with (more := split_at rest); [|exact Hne].
    now rewrite (split_at_first local (domain ++ 64%N :: rest) Hl),
                (split_at_first domain rest Hd). }
  vm_compute. reflexivity.
Qed.

(** C9 at [jo@example.com], whose local part has two characters. *)
Lemma maskEmail_spec_witness : maskEmail (js "jo@example.com") = js "j***@example.com".
Proof.
  refine (proj1 maskEmail_spec (js "jo") (js "example.com") _ _ _).
  - vm_compute. intuition discriminate.
  - vm_compute. intuition discriminate.
  - discriminate.
Defined.

(** C10 (cache directive).  Whatever the request, the method, the token and
    the outcome, the response the handler leaves carries the header
    [Cache-Control: no-store, max-age=0], set by the first statement. *)
Theorem cache_control_everywhere (node : Runtime) (k : Constants) (now : jsnum)
    (req : Request) (res : Response) (w : World) :
  getHeader (js "Cache-Control") (snd (fst (handler k now req res w)))
  = Some (js "no-store, max-age=0").
Proof.
  assert (Hcc : getHeader (js "Cache-Control") (no_store res) = Some (js "no-store, max-age=0"))
    by apply getHeader_setHeader.
  assert (Hother : forall name value,
             header_name name <> header_name (js "Cache-Control") ->
             getHeader (js "Cache-Control") (setHeader name value (no_store res))
             = Some (js "no-store, max-age=0")).
  { intros name value Hn. now rewrite getHeader_setHeader_other. }
  unfold handler. cbv zeta. fold (no_store res).
  destruct (negb (is_GET req) && negb (is_POST req)).
  { cbn [fst snd]. autorewrite with response. now apply Hother. }
  destruct (token_of (query_token req)) as [[|c t]|]; try exact Hcc.
  destruct (verify (UNSUB_SECRET k) now (c :: t)) as [[tag|email]|e]; try exact Hcc.
  unfold deliver. cbv zeta.
  destruct (is_POST req); [exact Hcc|].
  destruct (negb (Nat.eqb (length (VISIBLE_UNSUB_REDIRECT k)) 0)).
  - destruct (URL_with_params _ _); [|exact Hcc].
    cbn [fst snd]. autorewrite with response. now apply Hother.
  - cbn [fst snd]. autorewrite with response. now apply Hother.
Qed.


(* ================================================================== *)
(** * Further properties of the code *)

(** ** [esc] *)

Lemma esc_char_plain (c : N) : needs_escape c = false -> esc_char c = [c].
Proof.
  unfold needs_escape, esc_char. intros H.
  repeat (apply orb_false_iff in H; destruct H as [H ?]).
  repeat match goal with Hc : N.eqb c _ = false |- _ => rewrite Hc; clear Hc end.
  reflexivity.
Qed.

Lemma needs_escape_cases (c : N) :
  needs_escape c = true -> c = 38%N \/ c = 60%N \/ c = 62%N \/ c = 34%N \/ c = 39%N.
Proof.
  unfold needs_escape. intros H.
  repeat (apply orb_true_iff in H; destruct H as [H|H]);
    apply N.eqb_eq in H; auto 6.
Qed.

Lemma unesc_esc_char (c : N) (t : jsstring) :
  unesc (esc_char c ++ t) = c :: unesc t.
Proof.
  destruct (needs_escape c) eqn:Hc.
  - apply needs_escape_cases in Hc.
    destruct Hc as [->|[->|[->|[->| ->]]]]; reflexivity.
  - rewrite (esc_char_plain c Hc). cbn [app unesc].
    unfold needs_escape in Hc. apply orb_false_iff in Hc as [Hc _].
    repeat (apply orb_false_iff in Hc; destruct Hc as [Hc ?]).
    now rewrite Hc.
Qed.

Lemma unesc_esc (s : jsstring) : unesc (esc s) = s.
Proof.
  induction s as [|c s IH]; [reflexivity|].
  unfold esc. cbn [flat_map]. fold (esc s). now rewrite unesc_esc_char, IH.
Qed.

Lemma esc_char_no_markup (c : N) : Forall (fun x => is_markup x = false) (esc_char c).
Proof.
  destruct (needs_escape c) eqn:Hc.
  - apply needs_escape_cases in Hc.
    destruct Hc as [->|[->|[->|[->| ->]]]]; repeat constructor.
  - rewrite (esc_char_plain c Hc). constructor; [|constructor].
    unfold needs_escape in Hc. unfold is_markup.
    destruct (N.eqb c 38); [discriminate|]. exact Hc.
Qed.

Lemma esc_no_markup (s : jsstring) : Forall (fun x => is_markup x = false) (esc s).
Proof.
  induction s as [|c s IH]; [constructor|].
  unfold esc. cbn [flat_map]. apply Forall_app. split; [apply esc_char_no_markup | exact IH].
Qed.

Lemma esc_char_length (c : N) :
  (needs_escape c = true -> 4 <= length (esc_char c))
  /\ 1 <= length (esc_char c).
Proof.
  destruct (needs_escape c) eqn:Hc.
  - apply needs_escape_cases in Hc.
    destruct Hc as [->|[->|[->|[->| ->]]]]; cbn; split; intros; lia.
  - rewrite (esc_char_plain c Hc). cbn. split; [discriminate | lia].
Qed.

Lemma esc_length (s : jsstring) : length s <= length (esc s).
Proof.
  induction s as [|c s IH]; [reflexivity|].
  unfold esc. cbn [flat_map length]. fold (esc s). rewrite length_app.
  pose proof (proj2 (esc_char_length c)). lia.
Qed.

(** X1 ([esc] leaves no markup).  The escaped text contains none of the
    characters that open or close a tag or an attribute value; it is the
    text itself exactly when the text has none of the five characters
    [esc] replaces, and it is never shorter than the text. *)
Theorem esc_output (s : jsstring) :
  Forall (fun c => is_markup c = false) (esc s)
  /\ (esc s = s <-> Forall (fun c => needs_escape c = false) s)
  /\ length s <= length (esc s).
Proof.
  split; [apply esc_no_markup|]. split; [|apply esc_length].
  induction s as [|c s IH]; [split; auto|].
  unfold esc. cbn [flat_map]. fold (esc s). split.
  - intros H. destruct (needs_escape c) eqn:Hc.
    + exfalso. apply (f_equal (@length _)) in H. rewrite length_app in H. cbn [length] in H.
      pose proof (proj1 (esc_char_length c) Hc). pose proof (esc_length s). lia.
    + rewrite (esc_char_plain c Hc) in H. injection H as H.
      constructor; [exact Hc | now apply IH].
  - intros H. inversion H as [|x l Hc Hs]; subst.
    rewrite (esc_char_plain c Hc). cbn [app]. f_equal. now apply IH.
Qed.

(** X2 ([esc] loses nothing).  Two texts with the same escaped form are the
    same text: the entities read back give the text. *)
Theorem esc_injective (a b : jsstring) : esc a = esc b -> a = b.
Proof.
  intros H. rewrite <- (unesc_esc a), <- (unesc_esc b). now rewrite H.
Qed.

(** X2 at a text with a tag and one with the entity spelled out. *)
Lemma esc_injective_witness :
  esc (js "<b>") = js "&lt;b&gt;" /\ unesc (js "&lt;b&gt;") = js "<b>".
Proof.
  split; [reflexivity|].
  exact (esc_injective (unesc (js "&lt;b&gt;")) (js "<b>") eq_refl).
Defined.

(** ** [base64urlToBuffer] *)

Lemma sextets_stop (a b : jsstring) :
  Buffer.sextets (a ++ 61%N :: b) = Buffer.sextets a.
Proof.
  induction a as [|c a IH]; [reflexivity|].
  cbn [app Buffer.sextets]. cbv zeta.
  destruct (Buffer.unbase64 (c mod 256)); [now rewrite IH|].
  destruct (N.eqb (c mod 256) 61); [reflexivity | exact IH].
Qed.

Lemma sextets_pass (a b : jsstring) (c : N) :
  Buffer.unbase64 (c mod 256) = None -> N.eqb (c mod 256) 61 = false ->
  Buffer.sextets (a ++ c :: b) = Buffer.sextets (a ++ b).
Proof.
  intros Hnone Hpad. induction a as [|x a IH].
  - cbn [app Buffer.sextets]. cbv zeta. now rewrite Hnone, Hpad.
  - cbn [app Buffer.sextets]. cbv zeta.
    destruct (Buffer.unbase64 (x mod 256)); [now rewrite IH|].
    destruct (N.eqb (x mod 256) 61); [reflexivity | exact IH].
Qed.

(** The padding that line 32 appends never changes what is read. *)
Lemma base64urlToBuffer_unpadded (s : jsstring) :
  base64urlToBuffer s = Buffer.octets (Buffer.sextets (map to_standard s)).
Proof.
  unfold base64urlToBuffer, Buffer.from_base64. cbv zeta. rewrite replace_all_standard.
  destruct (N.to_nat _) as [|k]; [now rewrite app_nil_r|].
  cbn [repeat]. now rewrite sextets_stop.
Qed.

Lemma octets_length (q : list N) : 4 * length (Buffer.octets q) <= 3 * length q.
Proof.
  revert q. fix IH 1. intros [|a [|b [|c [|d rest]]]]; cbn [Buffer.octets length]; try lia.
  specialize (IH rest). lia.
Qed.

Lemma sextets_length (s : jsstring) : length (Buffer.sextets s) <= length s.
Proof.
  induction s as [|c s IH]; [reflexivity|].
  cbn [Buffer.sextets length]. cbv zeta.
  destruct (Buffer.unbase64 (c mod 256)); [cbn [length]; lia|].
  destruct (N.eqb (c mod 256) 61); cbn [length]; lia.
Qed.

(** X3 (no short token passes).  A token of [n] characters decodes to at
    most [3n/4] octets, so every token of fewer than 44 characters is turned
    down as "bad token", whatever the secret and the clock. *)
Theorem short_token_rejected (node : Runtime) (secret : jsstring) (now : jsnum)
    (token : jsstring) :
  length token < 44 ->
  4 * length (base64urlToBuffer token) <= 3 * length token
  /\ verify secret now token = Val (Rejected MalformedToken).
Proof.
  intros Hshort.
  assert (Hlen : 4 * length (base64urlToBuffer token) <= 3 * length token).
  { rewrite base64urlToBuffer_unpadded.
    pose proof (octets_length (Buffer.sextets (map to_standard token))) as Ho.
    pose proof (sextets_length (map to_standard token)) as Hs.
    rewrite length_map in Hs. lia. }
  split; [exact Hlen|].
  unfold verify, split_token. cbv zeta.
  assert (Hlt : Nat.ltb (length (base64urlToBuffer token)) 33 = true)
    by (apply Nat.ltb_lt; lia).
  now rewrite Hlt.
Qed.

(** X3 at a token of 43 characters. *)
Lemma short_token_rejected_witness :
  @verify reference (js "s3cret") a_day_in_2025 (firstn 43 jane_token)
  = Val (Rejected MalformedToken).
Proof.
  refine (proj2 (short_token_rejected reference (js "s3cret") a_day_in_2025
                   (firstn 43 jane_token) _)).
  vm_compute. lia.
Defined.

(** X4 (what follows a padding sign is not read).  A token and the same
    token followed by [=] and any text decode to the same octets and get the
    same verdict. *)
Theorem text_after_padding_ignored (node : Runtime) (secret : jsstring)
    (now : jsnum) (token rest : jsstring) :
  base64urlToBuffer (token ++ 61%N :: rest) = base64urlToBuffer token
  /\ verify secret now (token ++ 61%N :: rest) = verify secret now token.
Proof.
  assert (H : base64urlToBuffer (token ++ 61%N :: rest) = base64urlToBuffer token).
  { rewrite !base64urlToBuffer_unpadded, map_app. cbn [map].
    change (to_standard 61) with 61%N. now rewrite sextets_stop. }
  split; [exact H|]. unfold verify, split_token. now rewrite H.
Qed.

(** X5 (characters outside the alphabets; the two alphabets).  A character
    that belongs to neither base64 alphabet and is not [=] can be inserted
    anywhere in a token without changing the octets it decodes to or the
    verdict; and a token spelled with [+] and [/] decodes as the same token
    spelled with [-] and [_]. *)
Theorem token_spelling (node : Runtime) (secret : jsstring) (now : jsnum)
    (before after : jsstring) (c : N) :
  passed_over c = true ->
  base64urlToBuffer (before ++ c :: after) = base64urlToBuffer (before ++ after)
  /\ verify secret now (before ++ c :: after) = verify secret now (before ++ after)
  /\ (forall token, base64urlToBuffer (map to_standard token) = base64urlToBuffer token).
Proof.
  intros Hc. unfold passed_over in Hc.
  destruct (Buffer.unbase64 (to_standard c mod 256)) eqn:Hnone; [discriminate|].
  apply negb_true_iff in Hc.
  assert (H : base64urlToBuffer (before ++ c :: after) = base64urlToBuffer (before ++ after)).
  { rewrite !base64urlToBuffer_unpadded, !map_app. cbn [map].
    now rewrite (sextets_pass _ _ _ Hnone Hc). }
  split; [exact H|]. split; [unfold verify, split_token; now rewrite H|].
  intros token. rewrite !base64urlToBuffer_unpadded, map_map. f_equal. f_equal.
  apply map_ext. intros x. unfold to_standard.
  destruct (N.eqb x 45) eqn:H45.
  - reflexivity.
  - destruct (N.eqb x 95) eqn:H95; [reflexivity|]. now rewrite H45, H95.
Qed.

(** X5 at Jane's token with a line break after its twentieth character. *)
Lemma token_spelling_witness :
  @verify reference (js "s3cret") a_day_in_2025
    (firstn 20 jane_token ++ 10%N :: skipn 20 jane_token)
  = Val (Accepted (js "jane.doe@example.com")).
Proof.
  rewrite (proj1 (proj2 (token_spelling reference (js "s3cret") a_day_in_2025
                           (firstn 20 jane_token) (skipn 20 jane_token) 10%N eq_refl))).
  rewrite firstn_skipn. exact jane_accepted.
Defined.

(** ** The handler's gates *)

(** X6 (method gate).  A request whose method is neither GET nor POST is
    answered 405 with [Allow: GET, POST] and the text "Method Not Allowed";
    the token is not looked at and nothing outside changes. *)
Theorem other_method_refused (node : Runtime) (k : Constants) (now : jsnum)
    (req : Request) (res : Response) (w : World) :
  is_GET req = false -> is_POST req = false ->
  handler k now req res w
  = (Val tt,
     send (Text (js "Method Not Allowed"))
       (status 405 (setHeader (js "Allow") (js "GET, POST") (no_store res))),
     w)
  /\ getHeader (js "Allow") (snd (fst (handler k now req res w))) = Some (js "GET, POST").
Proof.
  intros Hg Hp.
  assert (H : handler k now req res w
              = (Val tt,
                 send (Text (js "Method Not Allowed"))
                   (status 405 (setHeader (js "Allow") (js "GET, POST") (no_store res))),
                 w))
    by (unfold handler; cbv zeta; now rewrite Hg, Hp).
  split; [exact H|]. rewrite H. cbn [fst snd]. autorewrite with response.
  apply getHeader_setHeader.
Qed.

(** X6 at a DELETE that carries Jane's valid token. *)
Lemma other_method_refused_witness :
  statusCode (snd (fst (@handler reference deployment a_day_in_2025
                          {| method := js "DELETE"; query_token := One jane_token |}
                          fresh_response backend_down))) = 405%Z.
Proof.
  rewrite (proj1 (other_method_refused reference deployment a_day_in_2025
                    {| method := js "DELETE"; query_token := One jane_token |}
                    fresh_response backend_down eq_refl eq_refl)).
  reflexivity.
Defined.

(** X7 (the token parameter).  A GET or POST whose token parameter is
    missing, the empty string, an empty array or an array that begins with
    the empty string is answered 400 "missing token" and nothing outside
    changes; of an array only the first element counts. *)
Theorem token_parameter (node : Runtime) (k : Constants) (now : jsnum)
    (req : Request) (res : Response) (w : World) :
  is_GET req || is_POST req = true ->
  (token_of (query_token req) = None \/ token_of (query_token req) = Some [] ->
   handler k now req res w = (Val tt, send (Text MissingToken) (status 400 (no_store res)), w))
  /\ (forall first others,
        query_token req = Many (first :: others) ->
        handler k now req res w
        = handler k now {| method := method req; query_token := One first |} res w)
  /\ (query_token req = Absent \/ query_token req = One [] \/ query_token req = Many []
      \/ (exists others, query_token req = Many ([] :: others)) ->
      token_of (query_token req) = None \/ token_of (query_token req) = Some []).
Proof.
  intros Hm. apply orb_true_iff in Hm.
  assert (Hgate : negb (is_GET req) && negb (is_POST req) = false)
    by (destruct Hm as [-> | ->]; cbn; auto using andb_false_r).
  split.
  { intros Hmissing. unfold handler. cbv zeta. rewrite Hgate.
    destruct Hmissing as [-> | ->]; reflexivity. }
  split.
  { intros first others Hq. unfold handler, is_GET, is_POST in *. cbn [method query_token].
    rewrite Hgate, Hq. reflexivity. }
  intros [-> | [-> | [-> | [others ->]]]]; cbn; auto.
Qed.

(** X7 at a POST whose token parameter is an array: Jane's token first. *)
Lemma token_parameter_witness :
  @handler reference deployment a_day_in_2025
    {| method := js "POST"; query_token := Many [jane_token; js "other"] |}
    fresh_response backend_down
  = @handler reference deployment a_day_in_2025 one_click fresh_response backend_down.
Proof.
  exact (proj1 (proj2 (token_parameter reference deployment a_day_in_2025
                         {| method := js "POST";
                            query_token := Many [jane_token; js "other"] |}
                         fresh_response backend_down eq_refl))
           jane_token [js "other"] eq_refl).
Defined.

(** ** What reaches the database *)

Lemma saveSuppression_traffic (email source : jsstring) (w : World) :
  let w' := snd (saveSuppression true email source w) in
  statements w' = statements w ++ [CreateTableIfNotExists]
  \/ statements w'
     = statements w ++ [CreateTableIfNotExists; InsertOnConflictUpdate email source].
Proof.
  unfold saveSuppression, pool_query. cbn [negb].
  destruct (outages w) as [|[] later]; cbn [tl exec].
  - destruct (suppression w); cbn; right; now rewrite <- app_assoc.
  - left. reflexivity.
  - destruct (suppression w); cbn [fst snd statements outages suppression db_now tl exec];
      destruct later as [|[] later']; cbn; auto; right; now rewrite <- app_assoc.
Qed.

(** X8 (the verifier gates the store).  Whatever the request, either the
    handler leaves everything outside as it was, or the request is a GET or
    POST whose token the verifier accepted and a pool exists; the statements
    sent are then [CREATE TABLE IF NOT EXISTS] and, unless that failed, one
    [INSERT] of the accepted address with the source of the method. *)
Theorem store_gated (node : Runtime) (k : Constants) (now : jsnum)
    (req : Request) (res : Response) (w : World) :
  snd (handler k now req res w) = w
  \/ exists token email,
       carries req token
       /\ verify (UNSUB_SECRET k) now token = Val (Accepted email)
       /\ pool k = true
       /\ snd (handler k now req res w) = saved k req email w
       /\ (statements (saved k req email w) = statements w ++ [CreateTableIfNotExists]
           \/ statements (saved k req email w)
              = statements w
                  ++ [CreateTableIfNotExists;
                      InsertOnConflictUpdate email (source_of req)]).
Proof.
  unfold handler. cbv zeta.
  destruct (negb (is_GET req) && negb (is_POST req)) eqn:Hgate; [now left|].
  destruct (token_of (query_token req)) as [[|c t]|] eqn:Htoken; try now left.
  destruct (verify (UNSUB_SECRET k) now (c :: t)) as [[tag|email]|e] eqn:Hv; try now left.
  rewrite deliver_world.
  destruct (pool k) eqn:Hpool.
  - right. exists (c :: t), email. split.
    { split; [|split; [exact Htoken | discriminate]].
      destruct (is_GET req), (is_POST req); auto; discriminate. }
    split; [exact Hv|]. split; [reflexivity|]. split; [reflexivity|].
    unfold saved. rewrite Hpool.
    pose proof (saveSuppression_traffic email (source_of req) w) as Ht. cbv zeta in Ht.
    destruct (saveSuppression true email (source_of req) w) as [[u|e] w1];
      cbn [snd] in Ht; exact Ht.
  - left. unfold saved, saveSuppression. now rewrite Hpool.
Qed.

(** X9 (no database configured).  When [DATABASE_URL] is unset or empty and
    no pool was left by an earlier load, the module has no pool and the
    handler changes nothing outside, whatever the request. *)
Theorem no_database_no_effect (node : Runtime) (env : ProcessEnv) (now : jsnum)
    (req : Request) (res : Response) (w : World) :
  env_DATABASE_URL env = None \/ env_DATABASE_URL env = Some [] ->
  pool (load env false) = false
  /\ snd (handler (load env false) now req res w) = w.
Proof.
  intros Hurl.
  assert (Hpool : pool (load env false) = false)
    by (unfold load; cbn [pool]; destruct Hurl as [-> | ->]; reflexivity).
  split; [exact Hpool|].
  unfold handler. cbv zeta.
  destruct (negb (is_GET req) && negb (is_POST req)); [reflexivity|].
  destruct (token_of (query_token req)) as [[|c t]|]; try reflexivity.
  destruct (verify _ now (c :: t)) as [[tag|email]|e]; try reflexivity.
  rewrite deliver_world. unfold saved, saveSuppression. now rewrite Hpool.
Qed.

(** X9 at Jane's one-click POST on a deployment without database. *)
Lemma no_database_no_effect_witness :
  snd (@handler reference
         (load {| env_UNSUB_SECRET := Some (js "s3cret"); env_DATABASE_URL := None;
                  env_VISIBLE_UNSUB_REDIRECT := None |} false)
         a_day_in_2025 one_click fresh_response backend_down)
  = backend_down.
Proof.
  exact (proj2 (no_database_no_effect reference
                  {| env_UNSUB_SECRET := Some (js "s3cret"); env_DATABASE_URL := None;
                     env_VISIBLE_UNSUB_REDIRECT := None |}
                  a_day_in_2025 one_click fresh_response backend_down (or_introl eq_refl))).
Defined.

(** ** The module's constants *)

(** X10 (the fallback secret).  The secret in use is never empty.  When
    [UNSUB_SECRET] is unset or empty it is the literal [CHANGE_THIS_SECRET],
    and then a token that anyone signs with that literal passes the split
    and the signature check and is judged on its payload alone. *)
Theorem fallback_secret (node : Runtime) (env : ProcessEnv) (global_pool : bool) :
  UNSUB_SECRET (load env global_pool) <> []
  /\ (env_UNSUB_SECRET env = None \/ env_UNSUB_SECRET env = Some [] ->
      UNSUB_SECRET (load env global_pool) = js "CHANGE_THIS_SECRET"
      /\ forall padded raw now,
           length (hmac_sha256 (js "CHANGE_THIS_SECRET") raw) = 32 ->
           verify (UNSUB_SECRET (load env global_pool)) now
             (Issuer.token padded raw (hmac_sha256 (js "CHANGE_THIS_SECRET") raw))
           = read_claim now raw)
  /\ (forall c s, env_UNSUB_SECRET env = Some (c :: s) ->
        UNSUB_SECRET (load env global_pool) = c :: s).
Proof.
  split.
  { unfold load. cbn [UNSUB_SECRET]. destruct (env_UNSUB_SECRET env) as [[|c s]|];
      cbn; discriminate. }
  split.
  { intros Hunset.
    assert (Hs : UNSUB_SECRET (load env global_pool) = js "CHANGE_THIS_SECRET")
      by (unfold load; cbn [UNSUB_SECRET]; destruct Hunset as [-> | ->]; reflexivity).
    split; [exact Hs|]. intros padded raw now Hlen. rewrite Hs.
    apply verify_signed. now apply issued_signed. }
  intros c s Hset. unfold load. cbn [UNSUB_SECRET]. now rewrite Hset.
Qed.

(** ** How the handler can end *)







(** X12 (a payload that is no object).  Let the token pass the split and the
    signature check.  If its payload is the JSON text [null], reading
    [email] throws: the verifier ends in a TypeError, and the handler with
    it, before anything is sent or written.  If the payload is a string, a
    Number, a boolean or an array, it has no [email] and the answer is
    "payload". *)
Theorem payload_not_an_object (node : Runtime) (secret : jsstring) (now : jsnum)
    (token : jsstring) (raw : bytes) (payload : JSON) :
  signed secret token raw ->
  JSON_parse (utf8_toString raw) = Some payload ->
  (payload = JNull ->
   verify secret now token = Throws TypeError
   /\ forall k req res w,
        UNSUB_SECRET k = secret -> carries req token ->
        handler k now req res w = (Throws TypeError, no_store res, w)
        /\ sent (no_store res) = sent res)
  /\ ((forall members, payload <> JObj members) -> payload <> JNull ->
      verify secret now token = Val (Rejected PayloadInvalid)).
Proof.
  intros Hsigned Hparse. rewrite (verify_signed secret now token raw Hsigned).
  unfold read_claim. rewrite Hparse. split.
  - intros ->. split; [reflexivity|]. intros k req res w <- Hc. split; [|reflexivity].
    rewrite (handler_carries k now req res w token Hc).
    rewrite (verify_signed (UNSUB_SECRET k) now token raw Hsigned).
    unfold read_claim. now rewrite Hparse.
  - intros Hobj Hnull. destruct payload; try reflexivity; [contradiction|].
    now contradiction (Hobj members).
Qed.

(** X12 at the token whose payload is [null]. *)
Lemma payload_not_an_object_witness :
  @verify reference (js "s3cret") a_day_in_2025 null_token = Throws TypeError.
Proof.
  exact (proj1 (proj1 (payload_not_an_object reference (js "s3cret") a_day_in_2025
                          null_token null_payload JNull null_signed null_parsed)
                  eq_refl)).
Defined.

(** X13 (a redirect address that is no address).  When a redirect address
    is configured and [new URL] refuses it, every GET with an accepted token
    ends in a TypeError with nothing sent, after the suppression has been
    written; a POST with the same token is answered 204 as ever. *)
Theorem malformed_redirect (node : Runtime) (k : Constants) (now : jsnum)
    (req : Request) (res : Response) (w : World) (token email : jsstring) :
  carries req token ->
  verify (UNSUB_SECRET k) now token = Val (Accepted email) ->
  VISIBLE_UNSUB_REDIRECT k <> [] ->
  URL_with_params (VISIBLE_UNSUB_REDIRECT k)
    [(js "status", js "success"); (js "email", maskEmail email)] = None ->
  (is_POST req = false ->
   handler k now req res w = (Throws TypeError, no_store res, saved k req email w))
  /\ (is_POST req = true ->
      handler k now req res w
      = (Val tt, send NoBody (status 204 (no_store res)), saved k req email w)).
Proof.
  intros Hc Hv Hr Hurl.
  rewrite (handler_accepted k now req res w token email Hc Hv).
  unfold deliver. cbv zeta. split; intros Hp; rewrite Hp; [|reflexivity].
  rewrite Hurl. destruct (VISIBLE_UNSUB_REDIRECT k); [contradiction|reflexivity].
Qed.

(** X13 at a GET with Jane's token: the row is there, the answer is not. *)
Lemma malformed_redirect_witness :
  @handler reference misdirected a_day_in_2025
    {| method := js "GET"; query_token := One jane_token |} fresh_response backend_up
  = (Throws TypeError, no_store fresh_response,
     {| suppression :=
          Some [{| row_email := js "jane.doe@example.com"; row_source := js "web";
                   row_reason := js "user-request"; row_ts := 1761955200 |}];
        db_now := 1761955200;
        outages := [];
        statements :=
          [CreateTableIfNotExists;
           InsertOnConflictUpdate (js "jane.doe@example.com") (js "web")];
        console := [] |}).
Proof.
  assert (Hc : carries {| method := js "GET"; query_token := One jane_token |} jane_token).
  { split; [reflexivity|]. split; [reflexivity|]. vm_compute. discriminate. }
  rewrite (proj1 (malformed_redirect reference misdirected a_day_in_2025
                    {| method := js "GET"; query_token := One jane_token |}
                    fresh_response backend_up jane_token (js "jane.doe@example.com")
                    Hc jane_accepted ltac:(discriminate) eq_refl) eq_refl).
  reflexivity.
Defined.

Lemma verify_tags (node : Runtime) (secret : jsstring) (now : jsnum)
    (token tag : jsstring) :
  verify secret now token = Val (Rejected tag) ->
  In tag [MalformedToken; SignatureInvalid; PayloadInvalid; TokenExpired].
Proof.
  unfold verify. destruct (split_token token) as [[raw sig]|];
    [|intros [= <-]; cbn; auto].
  cbv zeta. rewrite safeEqual_spec. cbn [rbind].
  destruct (negb _); [intros [= <-]; cbn; auto|]. unfold read_claim.
  destruct (JSON_parse _) as [payload|]; [|intros [= <-]; cbn; auto].
  destruct (get payload (js "email")) as [email|]; cbn [rbind]; [|discriminate].
  destruct (negb (truthy email)); [intros [= <-]; cbn; auto|].
  destruct (get payload (js "exp")) as [exp|]; cbn [rbind]; [|discriminate].
  destruct (negb (truthy exp)); [intros [= <-]; cbn; auto|].
  destruct (Number_ exp) as [limit|]; cbn [rbind]; [|discriminate].
  destruct (num_gt now limit); [intros [= <-]; cbn; auto|].
  destruct (String_ email); cbn [rbind]; discriminate.
Qed.

(** X14 (the answers there are).  When the handler returns, it has sent
    exactly one of five answers: 405 with "Method Not Allowed" to a method
    other than GET and POST; 400 with one of the five tags to a GET or POST;
    204 without body to a POST; 302 without body or 200 with the
    confirmation page to a GET.  When it ends in an exception it has sent
    nothing. *)
Theorem handler_answers (node : Runtime) (k : Constants) (now : jsnum)
    (req : Request) (res : Response) (w : World) :
  let outcome := fst (fst (handler k now req res w)) in
  let answer := snd (fst (handler k now req res w)) in
  (forall e, outcome = Throws e -> sent answer = sent res)
  /\ (outcome = Val tt ->
      (statusCode answer = 405%Z /\ sent answer = Some (Text (js "Method Not Allowed"))
       /\ is_GET req = false /\ is_POST req = false)
      \/ (statusCode answer = 400%Z /\ is_GET req || is_POST req = true
          /\ exists tag, sent answer = Some (Text tag)
             /\ In tag [MissingToken; MalformedToken; SignatureInvalid; PayloadInvalid;
                        TokenExpired])
      \/ (statusCode answer = 204%Z /\ sent answer = Some NoBody /\ is_POST req = true)
      \/ (statusCode answer = 302%Z /\ sent answer = Some NoBody
          /\ is_GET req = true /\ is_POST req = false
          /\ exists url, getHeader (js "Location") answer = Some url)
      \/ (statusCode answer = 200%Z /\ is_GET req = true /\ is_POST req = false
          /\ exists shown, sent answer = Some (ConfirmationPage shown))).
Proof.
  unfold handler. cbv zeta.
  destruct (is_GET req) eqn:Hg; destruct (is_POST req) eqn:Hp; cbn [negb andb orb];
    try (split; [discriminate | intros _; left; cbn; auto]).
  all: destruct (token_of (query_token req)) as [[|c t]|];
    try (split; [discriminate | intros _; right; left; cbn [fst snd statusCode send status sent];
         split; [reflexivity|]; split; [reflexivity|];
         exists MissingToken; cbn; auto]).
  all: destruct (verify (UNSUB_SECRET k) now (c :: t)) as [[tag|email]|e] eqn:Hv;
    try (split; [intros e0 _; reflexivity | discriminate]);
    try (split; [discriminate | intros _; right; left; cbn [fst snd statusCode send status sent];
         split; [reflexivity|]; split; [reflexivity|];
         exists tag; split; [reflexivity|]; right; exact (verify_tags node _ _ _ _ Hv)]).
  all: unfold deliver; cbv zeta; rewrite Hp;
    try (split; [discriminate | intros _; do 2 right; left; cbn; auto]).
  destruct (negb (Nat.eqb (length (VISIBLE_UNSUB_REDIRECT k)) 0)).
  - destruct (URL_with_params _ _) as [url|].
    + split; [discriminate|]. intros _. do 3 right. left.
      cbn [fst snd statusCode send status sent]. repeat split.
      exists url. autorewrite with response. apply getHeader_setHeader.
    + split; [intros e0 _; reflexivity | discriminate].
  - split; [discriminate|]. intros _. do 4 right.
    cbn [fst snd statusCode send status sent]. repeat split. eexists. reflexivity.
Qed.

(** ** [saveSuppression] when the backend fails *)

(** X15 (a failing statement).  With a pool, when the backend rejects
    [CREATE TABLE], the call throws, the [INSERT] is never sent and the
    table is as before; when it rejects the [INSERT], the call throws and
    the table, created if it was not there, has the rows it had.  In the
    handler either failure adds one line to the console and nothing else. *)
Theorem save_failures (email source : jsstring) (w : World) (later : list bool) :
  (outages w = true :: later ->
   saveSuppression true email source w
   = (Throws QueryFailed,
      {| suppression := suppression w; db_now := db_now w; outages := later;
         statements := statements w ++ [CreateTableIfNotExists];
         console := console w |}))
  /\ (outages w = false :: true :: later ->
      saveSuppression true email source w
      = (Throws QueryFailed,
         {| suppression := Some (created (suppression w)); db_now := db_now w;
            outages := later;
            statements := statements w
                            ++ [CreateTableIfNotExists;
                                InsertOnConflictUpdate email source];
            console := console w |}))
  /\ (forall k req,
        pool k = true -> source_of req = source ->
        outages w = true :: later \/ outages w = false :: true :: later ->
        console (saved k req email w)
        = console w ++ [(js "suppression save failed:", QueryFailed)]
        /\ created (suppression (saved k req email w)) = created (suppression w)).
Proof.
  assert (H1 : outages w = true :: later ->
               saveSuppression true email source w
               = (Throws QueryFailed,
                  {| suppression := suppression w; db_now := db_now w; outages := later;
                     statements := statements w ++ [CreateTableIfNotExists];
                     console := console w |})).
  { intros Ho. unfold saveSuppression, pool_query. cbn [negb]. now rewrite Ho. }
  assert (H2 : outages w = false :: true :: later ->
               saveSuppression true email source w
               = (Throws QueryFailed,
                  {| suppression := Some (created (suppression w)); db_now := db_now w;
                     outages := later;
                     statements := statements w
                                     ++ [CreateTableIfNotExists;
                                         InsertOnConflictUpdate email source];
                     console := console w |})).
  { intros Ho. unfold saveSuppression, pool_query. cbn [negb]. rewrite Ho.
    destruct (suppression w); cbn; rewrite <- app_assoc; reflexivity. }
  split; [exact H1|]. split; [exact H2|].
  intros k req Hp Hs [Ho|Ho]; unfold saved; rewrite Hp, Hs.
  - rewrite (H1 Ho). split; reflexivity.
  - rewrite (H2 Ho). split; [reflexivity|]. cbn. now destruct (suppression w).
Qed.

(** X15 at a backend that rejects the first statement. *)
Lemma save_failures_witness :
  saveSuppression true (js "jane.doe@example.com") (js "one-click") backend_down
  = (Throws QueryFailed,
     {| suppression := None; db_now := 0; outages := [];
        statements := [CreateTableIfNotExists]; console := [] |}).
Proof.
  exact (proj1 (save_failures (js "jane.doe@example.com") (js "one-click") backend_down [])
           eq_refl).
Defined.

(** ** The [INSERT ... ON CONFLICT] statement *)

(** X16 (what a write leaves alone).  The statement changes no row of
    another address and keeps their order; it adds one row when the address
    has none and no row when it has one. *)
Theorem upsert_frame (email source reason : jsstring) (now : Z) (t : Table) :
  rows_beside email (upsert email source reason now t) = rows_beside email t
  /\ length (upsert email source reason now t)
     = (if existsb (fun r => jsstring_eqb (row_email r) email) t
        then length t else S (length t))
  /\ rows_of email (upsert email source reason now t) <> [].
Proof.
  induction t as [|r t (IHb & IHl & IHr)].
  - cbn [upsert rows_beside rows_of filter row_email existsb length].
    rewrite jsstring_eqb_refl. cbn. repeat split. discriminate.
  - cbn [upsert existsb]. destruct (jsstring_eqb (row_email r) email) eqn:He.
    + cbn [rows_beside rows_of filter row_email orb length]. rewrite He. cbn [negb].
      repeat split. discriminate.
    + cbn [rows_beside rows_of filter orb length]. rewrite He. cbn [negb].
      fold (rows_beside email (upsert email source reason now t)).
      fold (rows_beside email t).
      fold (rows_of email (upsert email source reason now t)).
      rewrite IHb, IHl. repeat split; [|exact IHr].
      now destruct (existsb _ t).
Qed.

(** ** The clock *)

Lemma num_gt_later (a b : Q) (limit : jsnum) :
  (a <= b)%Q -> num_gt (Finite a) limit = true -> num_gt (Finite b) limit = true.
Proof.
  intros Hab. destruct limit as [|neg|q]; cbn [num_gt]; auto.
  intros Hgt. apply num_gt_finite in Hgt. apply num_gt_finite.
  now apply Qlt_le_trans with (y := a).
Qed.

(** The verdict as a function of the clock: it does not depend on it, or it
    is "expired" after a limit and one fixed result up to it. *)
Lemma verify_by_clock (node : Runtime) (secret token : jsstring) :
  (exists v, (forall now, verify secret now token = v)
             /\ v <> Val (Rejected TokenExpired) /\ (forall e, v <> Val (Accepted e)))
  \/ (exists limit early,
        (forall now, verify secret now token
                     = if num_gt now limit then Val (Rejected TokenExpired) else early)
        /\ (forall tag, early <> Val (Rejected tag))).
Proof.
  unfold verify. destruct (split_token token) as [[raw sig]|].
  2:{ left. eexists. split; [reflexivity|]. split; discriminate. }
  cbv zeta. rewrite safeEqual_spec. cbn [rbind]. destruct (negb _).
  { left. eexists. split; [reflexivity|]. split; discriminate. }
  unfold read_claim.
  assert (Hpayload : Val (Rejected PayloadInvalid) <> Val (Rejected TokenExpired))
    by discriminate.
  destruct (JSON_parse _) as [payload|].
  2:{ left. eexists. split; [reflexivity|]. split; [exact Hpayload | discriminate]. }
  destruct (get payload (js "email")) as [email|]; cbn [rbind].
  2:{ left. eexists. split; [reflexivity|]. split; discriminate. }
  destruct (negb (truthy email)).
  { left. eexists. split; [reflexivity|]. split; [exact Hpayload | discriminate]. }
  destruct (get payload (js "exp")) as [exp|]; cbn [rbind].
  2:{ left. eexists. split; [reflexivity|]. split; discriminate. }
  destruct (negb (truthy exp)).
  { left. eexists. split; [reflexivity|]. split; [exact Hpayload | discriminate]. }
  destruct (Number_ exp) as [limit|]; cbn [rbind].
  2:{ left. eexists. split; [reflexivity|]. split; discriminate. }
  right. exists limit. eexists. split; [reflexivity|].
  intros tag. destruct (String_ email); cbn [rbind]; discriminate.
Qed.

(** X17 (expiry is for good).  If a token is turned down as expired at one
    reading of the clock, it is at every later one; if it is accepted at one
    reading, it is accepted, with the same address, at every earlier one.
    Every other verdict, and an exception, is the same at all readings
    at which the token has not expired. *)
Theorem expiry_permanent (node : Runtime) (secret token : jsstring) (a b : Q) :
  (a <= b)%Q ->
  (verify secret (Finite a) token = Val (Rejected TokenExpired) ->
   verify secret (Finite b) token = Val (Rejected TokenExpired))
  /\ (forall email,
        verify secret (Finite b) token = Val (Accepted email) ->
        verify secret (Finite a) token = Val (Accepted email))
  /\ (verify secret (Finite b) token <> Val (Rejected TokenExpired) ->
      verify secret (Finite a) token = verify secret (Finite b) token).
Proof.
  intros Hab.
  destruct (verify_by_clock node secret token)
    as [(v & Hv & Hne & Hna) | (limit & early & Hv & Hearly)].
  - rewrite !Hv. split; [auto|]. split; auto.
  - rewrite !Hv.
    destruct (num_gt (Finite a) limit) eqn:Ha.
    + rewrite (num_gt_later a b limit Hab Ha). split; [auto|]. split.
      * discriminate.
      * intros H. now contradiction H.
    + destruct (num_gt (Finite b) limit) eqn:Hb.
      * split; [auto|]. split; [discriminate|]. intros H. now contradiction H.
      * split; [auto|]. split; auto.
Qed.

(** X17 at Jane's token, accepted in 2025 because it is in 2100. *)
Lemma expiry_permanent_witness :
  @verify reference (js "s3cret") (Finite 1761955200) jane_token
  = Val (Accepted (js "jane.doe@example.com")).
Proof.
  refine (proj1 (proj2 (expiry_permanent reference (js "s3cret") jane_token
                          1761955200 4102444800 _))
            (js "jane.doe@example.com") _).
  - vm_compute. discriminate.
  - rewrite (@verify_signed reference _ _ _ _ jane_signed).
    unfold read_claim. rewrite jane_parsed. vm_compute. reflexivity.
Defined.

(** ** Line 128: the stored address *)

Lemma is_space_range (c : N) : is_space c = true -> (c <= 32 \/ 160 <= c)%N.
Proof.
  unfold is_space.
  rewrite !orb_true_iff, !andb_true_iff, !N.eqb_eq, !N.leb_le. lia.
Qed.

Lemma is_space_lower (c : N) : is_space (lower_ascii c) = is_space c.
Proof.
  unfold lower_ascii. destruct ((65 <=? c) && (c <=? 90))%N eqn:Hr; [|reflexivity].
  apply andb_prop in Hr. destruct Hr as [H1 H2].
  apply N.leb_le in H1. apply N.leb_le in H2.
  destruct (is_space (c + 32)) eqn:Ha.
  - apply is_space_range in Ha. lia.
  - destruct (is_space c) eqn:Hb; [|reflexivity]. apply is_space_range in Hb. lia.
Qed.

Lemma lower_ascii_lower (c : N) : lower_ascii (lower_ascii c) = lower_ascii c.
Proof.
  unfold lower_ascii. destruct ((65 <=? c) && (c <=? 90))%N eqn:Hr.
  - apply andb_prop in Hr. destruct Hr as [H1 H2].
    apply N.leb_le in H1. apply N.leb_le in H2.
    assert (Hn : (c + 32 <=? 90)%N = false) by (apply N.leb_gt; lia).
    now rewrite Hn, andb_false_r.
  - now rewrite Hr.
Qed.

Lemma lower_ascii_small (c : N) :
  ((lower_ascii c <? 65) || (90 <? lower_ascii c))%N = true.
Proof.
  unfold lower_ascii. destruct ((65 <=? c) && (c <=? 90))%N eqn:Hr.
  - apply andb_prop in Hr. destruct Hr as [H1 H2].
    apply N.leb_le in H1. apply orb_true_iff. right. apply N.ltb_lt. lia.
  - apply andb_false_iff in Hr. apply orb_true_iff.
    destruct Hr as [H|H]; apply N.leb_gt in H; [left|right]; apply N.ltb_lt; lia.
Qed.

Lemma lower_ascii_ascii (c : N) : is_ascii c = true -> is_ascii (lower_ascii c) = true.
Proof.
  unfold is_ascii, lower_ascii. intros H. apply N.ltb_lt in H.
  destruct ((65 <=? c) && (c <=? 90))%N eqn:Hr; apply N.ltb_lt; [|exact H].
  apply andb_prop in Hr. destruct Hr as [_ H2]. apply N.leb_le in H2. lia.
Qed.

Lemma trimStart_suffix (s : jsstring) : exists pre, s = pre ++ trimStart s.
Proof.
  induction s as [|c s [pre IH]]; [now exists []|].
  cbn [trimStart]. destruct (is_space c).
  - exists (c :: pre). cbn [app]. now rewrite <- IH.
  - now exists [].
Qed.

Lemma trimStart_clean (s : jsstring) : starts_clean (trimStart s).
Proof.
  induction s as [|c s IH]; [exact I|].
  cbn [trimStart]. destruct (is_space c) eqn:Hc; [exact IH | exact Hc].
Qed.

Lemma trimStart_fixed (s : jsstring) : starts_clean s -> trimStart s = s.
Proof.
  destruct s as [|c s]; [reflexivity|]. cbn [starts_clean trimStart]. now intros ->.
Qed.

Lemma trimStart_map_lower (s : jsstring) :
  trimStart (map lower_ascii s) = map lower_ascii (trimStart s).
Proof.
  induction s as [|c s IH]; [reflexivity|].
  cbn [map trimStart]. rewrite is_space_lower. now destruct (is_space c).
Qed.

Lemma starts_clean_prefix (a b : jsstring) : starts_clean (a ++ b) -> starts_clean a.
Proof. destruct a; [intros; exact I | exact (fun H => H)]. Qed.

(** What [trim] returns starts and ends with no white space. *)
Lemma trim_clean (s : jsstring) :
  starts_clean (trim s) /\ starts_clean (rev (trim s)).
Proof.
  unfold trim. rewrite rev_involutive. split; [|apply trimStart_clean].
  destruct (trimStart_suffix (rev (trimStart s))) as [pre Hpre].
  apply (starts_clean_prefix _ (rev pre)). rewrite <- rev_app_distr, <- Hpre, rev_involutive.
  apply trimStart_clean.
Qed.

Lemma trim_fixed (s : jsstring) :
  starts_clean s -> starts_clean (rev s) -> trim s = s.
Proof.
  intros H1 H2. unfold trim.
  now rewrite (trimStart_fixed s H1), (trimStart_fixed (rev s) H2), rev_involutive.
Qed.

Lemma trim_map_lower (s : jsstring) :
  trim (map lower_ascii s) = map lower_ascii (trim s).
Proof.
  unfold trim. now rewrite trimStart_map_lower, <- map_rev, trimStart_map_lower, map_rev.
Qed.

Lemma forallb_suffix (f : N -> bool) (a b : jsstring) :
  forallb f (a ++ b) = true -> forallb f b = true.
Proof. rewrite forallb_app. intros H. now apply andb_prop in H. Qed.

Lemma forallb_rev (f : N -> bool) (s : jsstring) : forallb f (rev s) = forallb f s.
Proof.
  induction s as [|c s IH]; [reflexivity|].
  cbn [rev forallb]. rewrite forallb_app, IH. cbn [forallb].
  now rewrite andb_true_r, andb_comm.
Qed.

Lemma trimStart_ascii (s : jsstring) :
  forallb is_ascii s = true -> forallb is_ascii (trimStart s) = true.
Proof.
  intros H. destruct (trimStart_suffix s) as [pre Hpre].
  rewrite Hpre in H. exact (forallb_suffix _ _ _ H).
Qed.

Lemma trim_ascii (s : jsstring) :
  forallb is_ascii s = true -> forallb is_ascii (trim s) = true.
Proof.
  intros H. unfold trim. rewrite forallb_rev. apply trimStart_ascii.
  rewrite forallb_rev. now apply trimStart_ascii.
Qed.

Lemma map_lower_ascii (s : jsstring) :
  forallb is_ascii s = true -> forallb is_ascii (map lower_ascii s) = true.
Proof.
  induction s as [|c s IH]; [reflexivity|].
  cbn [map forallb]. intros H. apply andb_prop in H. destruct H as [Hc Hs].
  now rewrite (lower_ascii_ascii c Hc), (IH Hs).
Qed.

Lemma normalize_ascii (node : Runtime) (s : jsstring) :
  forallb is_ascii s = true -> normalize s = map lower_ascii (trim s).
Proof. intros H. unfold normalize, toLowerCase. now rewrite (trim_ascii s H). Qed.

(** X18 (the stored address is in normal form).  For text in ASCII, what
    line 128 makes of it has no capital letter and no white space at either
    end, and line 128 leaves it as it is: an address read back from the
    table and sent through the handler again lands on the same row. *)
Theorem normalize_canonical (node : Runtime) (s : jsstring) :
  forallb is_ascii s = true ->
  normalize (normalize s) = normalize s
  /\ forallb (fun c => (c <? 65) || (90 <? c))%N (normalize s) = true
  /\ starts_clean (normalize s)
  /\ starts_clean (rev (normalize s))
  /\ length (normalize s) <= length s.
Proof.
  intros H. rewrite (normalize_ascii node s H).
  assert (Hclean : starts_clean (map lower_ascii (trim s))
                   /\ starts_clean (rev (map lower_ascii (trim s)))).
  { rewrite <- trim_map_lower. apply trim_clean. }
  split; [|split; [|split; [|split]]]; try apply Hclean.
  - rewrite (normalize_ascii node _ (map_lower_ascii _ (trim_ascii s H))).
    rewrite (trim_fixed _ (proj1 Hclean) (proj2 Hclean)), map_map.
    apply map_ext. apply lower_ascii_lower.
  - rewrite forallb_forall. intros c Hc. apply in_map_iff in Hc.
    destruct Hc as (x & <- & _). apply lower_ascii_small.
  - rewrite length_map. unfold trim. rewrite length_rev.
    destruct (trimStart_suffix (rev (trimStart s))) as [p1 H1].
    destruct (trimStart_suffix s) as [p2 H2].
    apply (f_equal (@length N)) in H1. apply (f_equal (@length N)) in H2.
    rewrite length_app in H1, H2. rewrite length_rev in H1. lia.
Qed.

(** X18 at Jane's address as her token spells it. *)
Lemma normalize_canonical_witness :
  @normalize reference (@normalize reference (js "Jane.Doe@Example.com "))
  = @normalize reference (js "Jane.Doe@Example.com ").
Proof.
  exact (proj1 (normalize_canonical reference (js "Jane.Doe@Example.com ") eq_refl)).
Defined.

(** ** Lines 153-195: the confirmation page *)

(** X19 (nothing of the token reaches the page as markup).  A GET with an
    accepted token, in a deployment with no redirect address, is answered
    200 with the content type of an HTML page, and the text put into the
    page contains none of the characters that open or close a tag or an
    attribute value; read back, its entities give the masked address. *)
Theorem page_inert (node : Runtime) (k : Constants) (now : jsnum) (req : Request)
    (res : Response) (w : World) (token email : jsstring) :
  carries req token ->
  verify (UNSUB_SECRET k) now token = Val (Accepted email) ->
  is_POST req = false ->
  VISIBLE_UNSUB_REDIRECT k = [] ->
  let answer := snd (fst (handler k now req res w)) in
  exists shown,
    sent answer = Some (ConfirmationPage shown)
    /\ Forall (fun c => is_markup c = false) shown
    /\ unesc shown = maskEmail email
    /\ statusCode answer = 200%Z
    /\ getHeader (js "Content-Type") answer = Some (js "text/html; charset=utf-8").
Proof.
  intros Hc Hv Hp Hr answer. subst answer.
  rewrite (handler_accepted k now req res w token email Hc Hv).
  unfold deliver. rewrite Hp, Hr. cbn [length Nat.eqb negb fst snd].
  exists (esc (maskEmail email)).
  split; [reflexivity|]. split; [apply esc_no_markup|]. split; [apply unesc_esc|].
  split; [reflexivity|].
  autorewrite with response. apply getHeader_setHeader.
Qed.

Lemma markup_signed : @signed reference (js "s3cret") markup_token markup_payload.
Proof. apply (@issued_signed reference), reference_hmac_length. Qed.

Lemma markup_accepted :
  @verify reference (js "s3cret") a_day_in_2025 markup_token
  = Val (Accepted (js "eve@<script>.example")).
Proof.
  rewrite (@verify_signed reference _ _ _ _ markup_signed). vm_compute. reflexivity.
Qed.

Lemma markup_click_carries : carries markup_click markup_token.
Proof.
  split; [reflexivity|]. split; [reflexivity|]. vm_compute. discriminate.
Qed.

(** X19 at an address whose domain spells a tag. *)
Lemma page_inert_witness :
  exists shown,
    sent (snd (fst (@handler reference deployment a_day_in_2025 markup_click
                      fresh_response backend_up)))
    = Some (ConfirmationPage shown)
    /\ Forall (fun c => is_markup c = false) shown
    /\ unesc shown = maskEmail (js "eve@<script>.example")
    /\ statusCode (snd (fst (@handler reference deployment a_day_in_2025 markup_click
                               fresh_response backend_up))) = 200%Z
    /\ getHeader (js "Content-Type")
         (snd (fst (@handler reference deployment a_day_in_2025 markup_click
                      fresh_response backend_up)))
       = Some (js "text/html; charset=utf-8").
Proof.
  exact (page_inert reference deployment a_day_in_2025 markup_click fresh_response
           backend_up markup_token (js "eve@<script>.example")
           markup_click_carries markup_accepted eq_refl eq_refl).
Defined.

(** ** Line 128: an address that is no string *)

(** X20 (the address is not checked to be text).  A signed payload whose
    [email] is an object, with no member named [toString], passes every
    check when its [exp] does, and the address handed on, and stored, is
    the text [[object object]]. *)
Theorem object_address (node : Runtime) (secret : jsstring) (now : jsnum)
    (token : jsstring) (raw : bytes) (payload : JSON)
    (members : list (jsstring * JSON)) (exp : jsval) (limit : jsnum) :
  signed secret token raw ->
  JSON_parse (utf8_toString raw) = Some payload ->
  get payload (js "email") = Val (Some (JObj members)) ->
  has_own members (js "toString") = false ->
  get payload (js "exp") = Val exp ->
  truthy exp = true ->
  Number_ exp = Val limit ->
  num_gt now limit = false ->
  verify secret now token = Val (Accepted (js "[object object]")).
Proof.
  intros Hs Hj He Ht Hx Hy Hn Hg.
  rewrite (verify_signed secret now token raw Hs). unfold read_claim.
  rewrite Hj, He. cbn [rbind truthy negb]. rewrite Hx. cbn [rbind]. rewrite Hy.
  cbn [negb]. rewrite Hn. cbn [rbind]. rewrite Hg.
  cbn [String_ ToString]. rewrite Ht. cbn [rbind]. reflexivity.
Qed.

Lemma object_signed : @signed reference (js "s3cret") object_token object_payload.
Proof. apply (@issued_signed reference), reference_hmac_length. Qed.

(** X20 at a payload whose [email] is [{name: Jane}]. *)
Lemma object_address_witness :
  @verify reference (js "s3cret") a_day_in_2025 object_token
  = Val (Accepted (js "[object object]")).
Proof.
  refine (object_address reference (js "s3cret") a_day_in_2025 object_token object_payload
            (JObj [(js "email", JObj [(js "name", JStr (js "Jane"))]);
                   (js "exp", JNum (Finite 4102444800))])
            [(js "name", JStr (js "Jane"))] (Some (JNum (Finite 4102444800)))
            (Finite 4102444800) object_signed _ _ _ _ _ _ _);
    vm_compute; reflexivity.
Defined.

(** ** [safeEqual], lines 36-41 *)

(** X21 (the comparison never throws).  [safeEqual] answers true exactly
    for equal octet strings and false for all others; for operands of
    different lengths, where [crypto.timingSafeEqual] alone would throw a
    RangeError, the length test of line 39 answers false before it is
    called. *)
Theorem safeEqual_decides (a b : bytes) :
  (safeEqual a b = Val true <-> a = b)
  /\ (safeEqual a b = Val false <-> a <> b)
  /\ (length a <> length b ->
      timingSafeEqual a b = Throws RangeError /\ safeEqual a b = Val false).
Proof.
  rewrite safeEqual_spec. split; [|split].
  - rewrite <- bytes_eqb_true. split; [now intros [= ->] | now intros ->].
  - rewrite <- bytes_eqb_false. split; [now intros [= ->] | now intros ->].
  - intros Hlen. split.
    + unfold timingSafeEqual. apply Nat.eqb_neq in Hlen. now rewrite Hlen.
    + f_equal. apply bytes_eqb_false. intros ->. now apply Hlen.
Qed.
